(** * CPT extraction pipeline: EPUB navigator and chunk driver

    A shallow embedding of [rag/shared_libraries/epub_navigator.py] and of
    the chunk loop of [rag/shared_libraries/cpt_extractor.py], with the
    properties their specification states about them.

    Conventions of the embedding:
    - Python [str] is [string]; characters are bytes, so [\d] and
      [str.isspace] are their ASCII restrictions.
    - Python [int] is [Z].
    - A Python [dict] used as a map is a [gmap]; the order of its items is
      kept only where the code's result depends on it.
    - A call that may raise returns a [result]; an exception caught by the
      code itself never shows in the type. *)

From Stdlib Require Import ZArith String Ascii List Bool.
From Stdlib Require Import DecimalString DecimalPos DecimalZ.
From stdpp Require Import gmap strings list sorting.

Local Open Scope string_scope.
Local Open Scope Z_scope.
Local Open Scope list_scope.

(** ** Exceptions *)

Inductive exn : Type :=
| TypeError
| ValueError
| AttributeError.

Inductive result (A : Type) : Type :=
| Ok (a : A)
| Raise (e : exn).
Arguments Ok {A} a.
Arguments Raise {A} e.

Definition bind_result {A B} (r : result A) (k : A → result B) : result B :=
  match r with
  | Ok a => k a
  | Raise e => Raise e
  end.

Global Instance result_ret : MRet result := λ A a, Ok a.
Global Instance result_bind : MBind result := λ A B k r, bind_result r k.
Global Instance result_fmap : FMap result := λ A B f r,
  bind_result r (λ a, Ok (f a)).

(** ** Python built-ins the code relies on *)

Module Py.

(** [str.isspace] on one character (ASCII range). *)
Definition is_space (c : ascii) : bool :=
  let n := nat_of_ascii c in
  ((9 <=? n)%nat && (n <=? 13)%nat) || ((28 <=? n)%nat && (n <=? 32)%nat).

Definition is_digit (c : ascii) : bool :=
  let n := nat_of_ascii c in (48 <=? n)%nat && (n <=? 57)%nat.

Fixpoint lstrip (s : string) : string :=
  match s with
  | String c s' => if is_space c then lstrip s' else s
  | EmptyString => EmptyString
  end.

Fixpoint rstrip (s : string) : string :=
  match s with
  | String c s' =>
      match rstrip s' with
      | EmptyString => if is_space c then EmptyString else String c EmptyString
      | r => String c r
      end
  | EmptyString => EmptyString
  end.

(** [s.strip()] *)
Definition strip (s : string) : string := rstrip (lstrip s).

(** [s.startswith(p)] *)
Fixpoint startswith (s p : string) {struct p} : bool :=
  match p, s with
  | EmptyString, _ => true
  | String a p', String b s' => Ascii.eqb b a && startswith s' p'
  | String _ _, EmptyString => false
  end.

(** [s[n:]] for [0 <= n] *)
Fixpoint drop (n : nat) (s : string) : string :=
  match n, s with
  | O, _ => s
  | S n', String _ s' => drop n' s'
  | S _, EmptyString => EmptyString
  end.

(** [s[:n]] for [0 <= n] *)
Fixpoint take (n : nat) (s : string) : string :=
  match n, s with
  | O, _ => EmptyString
  | S n', String c s' => String c (take n' s')
  | S _, EmptyString => EmptyString
  end.

(** [s.endswith(p)] *)
Definition endswith (s p : string) : bool :=
  (String.length p <=? String.length s)%nat
  && String.eqb (drop (String.length s - String.length p) s) p.

(** [s[:-n]] for [0 < n] *)
Definition drop_end (n : nat) (s : string) : string :=
  take (String.length s - n) s.

(** [s.split('\n')]: never empty, [""] gives [[""]]. *)
Fixpoint split_lines (s : string) : list string :=
  match s with
  | EmptyString => [EmptyString]
  | String c s' =>
      if Ascii.eqb c "010" then EmptyString :: split_lines s'
      else match split_lines s' with
           | l :: ls => String c l :: ls
           | [] => [String c EmptyString]
           end
  end.

(** [sep.join(l)] *)
Fixpoint join (sep : string) (l : list string) : string :=
  match l with
  | [] => EmptyString
  | [x] => x
  | x :: rest => x +:+ sep +:+ join sep rest
  end.

(** [s.replace("page_", "")]: every occurrence is removed, scanning from
    the left; [skip] counts the characters of a match still to drop. *)
Fixpoint remove_page_ (skip : nat) (s : string) : string :=
  match s with
  | EmptyString => EmptyString
  | String c s' =>
      match skip with
      | S k => remove_page_ k s'
      | O => if startswith s "page_" then remove_page_ 4 s'
             else String c (remove_page_ 0 s')
      end
  end.

Fixpoint all_chars (P : ascii → bool) (s : string) : bool :=
  match s with
  | EmptyString => true
  | String c s' => P c && all_chars P s'
  end.

(** [str(n)] for an [int]. *)
Definition str_int (n : Z) : string :=
  match n with
  | Z0 => "0"
  | Zpos p => NilEmpty.string_of_uint (Pos.to_uint p)
  | Zneg p => String "-" (NilEmpty.string_of_uint (Pos.to_uint p))
  end.

(** The digits of an [int()] literal: one or more digits, single
    underscores allowed between digits only. Gives the digits without
    the underscores. *)
Fixpoint int_digits (after_digit : bool) (s : string) : option string :=
  match s with
  | EmptyString => if after_digit then Some EmptyString else None
  | String c s' =>
      if is_digit c then String c <$> int_digits true s'
      else if Ascii.eqb c "_" && after_digit then int_digits false s'
      else None
  end.

(** The whitespace [int()] skips around a literal: on ASCII characters it is
    C's [isspace] (tab to carriage return, and the space), not
    [str.isspace], which also takes the separators 28 to 31. *)
Definition is_c_space (c : ascii) : bool :=
  let n := nat_of_ascii c in
  ((9 <=? n)%nat && (n <=? 13)%nat) || (n =? 32)%nat.

Fixpoint lskip (s : string) : string :=
  match s with
  | String c s' => if is_c_space c then lskip s' else s
  | EmptyString => EmptyString
  end.

Fixpoint rskip (s : string) : string :=
  match s with
  | String c s' =>
      match rskip s' with
      | EmptyString =>
          if is_c_space c then EmptyString else String c EmptyString
      | r => String c r
      end
  | EmptyString => EmptyString
  end.

Definition int_strip (s : string) : string := rskip (lskip s).

(** [int(s)] for a [str]: [None] is [ValueError]. The limit on the number
    of digits (4300 unless configured) is not modelled. *)
Definition int_of_str (s : string) : option Z :=
  let t := int_strip s in
  let '(neg, body) :=
    match t with
    | String "-" r => (true, r)
    | String "+" r => (false, r)
    | _ => (false, t)
    end in
  ds ← int_digits false body;
  u ← NilEmpty.uint_of_string ds;
  Some (if neg : bool then - Z.of_uint u else Z.of_uint u).

(** [posixpath.join(a, b)] *)
Definition path_join (a b : string) : string :=
  if startswith b "/" then b
  else if String.eqb a "" || endswith a "/" then a +:+ b
  else a +:+ "/" +:+ b.

(** [re.compile(r'^page_\d+$').search(s)] succeeds: [page_], one or more
    digits, then the end of the string or one final newline. *)
Fixpoint digits_then_end (seen : bool) (s : string) : bool :=
  match s with
  | EmptyString => seen
  | String c s' =>
      if is_digit c then digits_then_end true s'
      else seen && Ascii.eqb c "010" && String.eqb s' ""
  end.

Definition is_page_marker (s : string) : bool :=
  startswith s "page_" && digits_then_end false (drop 5 s).

End Py.

(** ** The navigator's data *)

(** What BeautifulSoup gives for one content file, as far as the code looks
    at it: the [id] of every [span] element that has one, the stripped text
    of every [h1] to [h4] element, all in document order, and
    [get_text(separator='\n')] of the whole file. *)
Record document : Type := {
  doc_span_ids : list string;
  doc_h1 : list string;
  doc_h2 : list string;
  doc_h3 : list string;
  doc_h4 : list string;
  doc_text : string
}.

(** A value of [page_map]. *)
Record page_info : Type := {
  file_id : string;
  full_path : string;
  anchor_id : string
}.

Global Instance page_info_eq_dec : EqDecision page_info.
Proof. solve_decision. Defined.

(** [EPUBNavigator]. [z] maps an archive path to the parsed file; a path
    with no entry is one whose [z.read(..).decode(..)] raises. [opf_dir] is
    [os.path.dirname(self.opf_path)]. *)
Record EPUBNavigator : Type := {
  z : gmap string document;
  opf_dir : string;
  spine : list string;
  manifest : gmap string string;
  page_map : gmap Z page_info
}.

(** ** [_build_page_map] *)

Section build.
Variable zip : gmap string document.
Variable dir : string.
Variable mani : gmap string string.

(** The loop over the matching spans of one file. An [int()] failure
    leaves the loop through the file's [except], keeping what was
    stored. *)
Fixpoint scan_spans (item_id path : string) (ids : list string)
    (pm : gmap Z page_info) : gmap Z page_info :=
  match ids with
  | [] => pm
  | sid :: rest =>
      match Py.int_of_str (Py.remove_page_ 0 sid) with
      | Some page_num =>
          scan_spans item_id path rest
            (<[page_num := {| file_id := item_id; full_path := path;
                             anchor_id := sid |}]> pm)
      | None => pm
      end
  end.

(** The loop over the spine. *)
Fixpoint scan_spine (items : list string) (pm : gmap Z page_info)
    : gmap Z page_info :=
  match items with
  | [] => pm
  | item_id :: rest =>
      match mani !! item_id with
      | None => scan_spine rest pm
      | Some href =>
          if String.eqb href "" then scan_spine rest pm
          else
            let path := if String.eqb dir "" then href
                        else Py.path_join dir href in
            match zip !! path with
            | None => scan_spine rest pm
            | Some doc =>
                scan_spine rest
                  (scan_spans item_id path
                     (filter (λ s, Py.is_page_marker s = true)
                             (doc_span_ids doc)) pm)
            end
      end
  end.

Definition scan_book (sp : list string) : gmap Z page_info :=
  scan_spine sp ∅.

End build.

(** The sidecar file [epub_path + ".pagemap.json"]: either something
    [json.load] rejects, or a JSON object, given by the items of the [dict]
    [json.load] returns, in order (so its keys are distinct); the values
    are taken to be location records. *)
Inductive cache_file : Type :=
| CacheInvalid
| CacheObject (items : list (string * page_info)).

(** [{int(k): v for k, v in data.items()}]; [None] when an [int(k)]
    raises. *)
Fixpoint coerce_keys (items : list (string * page_info))
    (acc : gmap Z page_info) : option (gmap Z page_info) :=
  match items with
  | [] => Some acc
  | (k, v) :: rest =>
      n ← Py.int_of_str k;
      coerce_keys rest (<[n := v]> acc)
  end.

(** What [json.dump(page_map, f)] followed by [json.load] gives: the keys
    turned into their decimal strings. *)
Definition dump_page_map (pm : gmap Z page_info) : cache_file :=
  CacheObject (prod_map Py.str_int id <$> map_to_list pm).

(** [_build_page_map], with the cache file as state: [cache] is the file
    before the call ([None]: absent), [writable] tells whether opening it
    for writing succeeds. Returns the page map and the file afterwards. *)
Definition _build_page_map (zip : gmap string document) (dir : string)
    (sp : list string) (mani : gmap string string)
    (cache : option cache_file) (writable : bool)
    : gmap Z page_info * option cache_file :=
  let rebuild :=
    let pm := scan_book zip dir mani sp in
    (pm, if writable then Some (dump_page_map pm) else cache) in
  match cache with
  | Some (CacheObject items) =>
      match coerce_keys items ∅ with
      | Some pm => (pm, cache)
      | None => rebuild
      end
  | Some CacheInvalid => rebuild
  | None => rebuild
  end.

(** [EPUBNavigator.__init__] once the archive, the OPF directory, the spine
    and the manifest are read. *)
Definition open_navigator (zip : gmap string document) (dir : string)
    (sp : list string) (mani : gmap string string)
    (cache : option cache_file) (writable : bool)
    : EPUBNavigator * option cache_file :=
  let '(pm, cache') := _build_page_map zip dir sp mani cache writable in
  ({| z := zip; opf_dir := dir; spine := sp; manifest := mani;
      page_map := pm |}, cache').

(** ** Locating a spine file in the archive *)

(** [href = self.manifest.get(item_id)] followed by
    [os.path.join(opf_dir, href) if opf_dir else href]: with a directory,
    a missing manifest entry makes [os.path.join] raise [TypeError]; with
    none, the path is [None]. *)
Definition item_path (nav : EPUBNavigator) (item_id : string)
    : result (option string) :=
  let href := manifest nav !! item_id in
  if String.eqb (opf_dir nav) "" then Ok href
  else match href with
       | Some h => Ok (Some (Py.path_join (opf_dir nav) h))
       | None => Raise TypeError
       end.

(** [BeautifulSoup(self.z.read(full_path).decode('utf-8'))]; [None] when
    it raises (also for the path [None]). *)
Definition read_path (nav : EPUBNavigator) (path : option string)
    : option document :=
  p ← path; z nav !! p.

(** ** [get_content_by_page_range] *)

(** The loop over the spine. Besides the collected texts it returns the
    items whose file [z.read] was called on, in order. *)
Fixpoint collect_range (nav : EPUBNavigator) (start_file : string)
    (end_file : option string) (collecting : bool) (items : list string)
    : result (list string * list string) :=
  match items with
  | [] => Ok ([], [])
  | item_id :: rest =>
      path ← item_path nav item_id;
      if negb collecting && negb (String.eqb item_id start_file) then
        collect_range nav start_file end_file collecting rest
      else
        match read_path nav path with
        | None =>
            '(reads, content) ←
              collect_range nav start_file end_file collecting rest;
            Ok (item_id :: reads, content)
        | Some soup =>
            let collecting' :=
              if String.eqb item_id start_file then true else collecting in
            let content := if collecting' then [doc_text soup] else [] in
            if bool_decide (end_file = Some item_id) then
              Ok ([item_id], content)
            else
              '(reads, content') ←
                collect_range nav start_file end_file collecting' rest;
              Ok (item_id :: reads, (content ++ content')%list)
        end
  end.

(** The files read and the returned string. *)
Definition get_content_by_page_range_reads (nav : EPUBNavigator)
    (start_page end_page : Z) : result (list string * string) :=
  let start_info := page_map nav !! start_page in
  let end_info := page_map nav !! (end_page + 1) in
  match start_info with
  | None =>
      Ok ([], "Error: Start page " +:+ Py.str_int start_page +:+ " not found.")
  | Some si =>
      '(reads, content) ←
        collect_range nav (file_id si) (file_id <$> end_info) false
          (spine nav);
      Ok (reads, Py.join "
" content)
  end.

Definition get_content_by_page_range (nav : EPUBNavigator)
    (start_page end_page : Z) : result string :=
  snd <$> get_content_by_page_range_reads nav start_page end_page.

(** ** [get_hierarchy_context] *)

Record context : Type := {
  section : option string;
  section_text : option string;
  subsection : option string;
  subsection_text : option string;
  subheading : option string;
  subheading_text : option string;
  topic : option string;
  topic_text : option string
}.

Definition empty_context : context :=
  {| section := None; section_text := None;
     subsection := None; subsection_text := None;
     subheading := None; subheading_text := None;
     topic := None; topic_text := None |}.

(** [if context[k] is None: h = soup.find_all(tag); if h: context[k] =
    h[-1].get_text(strip=True)] *)
Definition fill (current : option string) (found : list string)
    : option string :=
  match current with
  | Some _ => current
  | None => last found
  end.

Definition fill_from (soup : document) (c : context) : context :=
  {| topic := fill (topic c) (doc_h4 soup);
     subheading := fill (subheading c) (doc_h3 soup);
     subsection := fill (subsection c) (doc_h2 soup);
     section := fill (section c) (doc_h1 soup);
     section_text := section_text c;
     subsection_text := subsection_text c;
     subheading_text := subheading_text c;
     topic_text := topic_text c |}.

Definition all_resolved (c : context) : bool :=
  bool_decide (section c ≠ None) && bool_decide (subsection c ≠ None)
  && bool_decide (subheading c ≠ None) && bool_decide (topic c ≠ None).

(** The loop [for i in range(start_index, -1, -1)], over the items
    [spine[start_index]], ..., [spine[0]]. Returns the items whose file
    [z.read] was called on, and the context. *)
Fixpoint walk_back (nav : EPUBNavigator) (items : list string) (c : context)
    : result (list string * context) :=
  match items with
  | [] => Ok ([], c)
  | item_id :: rest =>
      path ← item_path nav item_id;
      match read_path nav path with
      | None =>
          '(reads, c') ← walk_back nav rest c;
          Ok (item_id :: reads, c')
      | Some soup =>
          let c1 := fill_from soup c in
          if all_resolved c1 then Ok ([item_id], c1)
          else
            '(reads, c') ← walk_back nav rest c1;
            Ok (item_id :: reads, c')
      end
  end.

(** [self.spine.index(x)]: the first position of [x]. *)
Fixpoint index_of (x : string) (l : list string) : option nat :=
  match l with
  | [] => None
  | y :: l' => if String.eqb y x then Some O else S <$> index_of x l'
  end.

Definition get_hierarchy_context_reads (nav : EPUBNavigator)
    (page_number : Z) : result (list string * context) :=
  match page_map nav !! page_number with
  | None => Ok ([], empty_context)
  | Some start_info =>
      match index_of (file_id start_info) (spine nav) with
      | None => Raise ValueError
      | Some start_index =>
          walk_back nav (reverse (take (S start_index) (spine nav)))
            empty_context
      end
  end.

Definition get_hierarchy_context (nav : EPUBNavigator) (page_number : Z)
    : result context :=
  snd <$> get_hierarchy_context_reads nav page_number.

(** ** [get_chapter_boundaries] *)

Record boundary : Type := {
  b_file_id : string;
  start_page : Z;
  end_page : Z
}.

Global Instance boundary_eq_dec : EqDecision boundary.
Proof. solve_decision. Defined.

(** The first loop: [file_to_pages], over [page_map.items()]. *)
Definition group_step (file_to_pages : gmap string (list Z))
    (item : Z * page_info) : gmap string (list Z) :=
  let fid := file_id item.2 in
  <[fid := (default [] (file_to_pages !! fid) ++ [item.1])%list]> file_to_pages.

Definition group_pages (items : list (Z * page_info))
    : gmap string (list Z) :=
  foldl group_step ∅ items.

(** The second loop. [pages] is never empty there, so [pages[0]] and
    [pages[-1]] exist; the model skips the item otherwise. *)
Fixpoint boundaries_of (file_to_pages : gmap string (list Z))
    (items : list string) : list boundary :=
  match items with
  | [] => []
  | item_id :: rest =>
      match file_to_pages !! item_id with
      | Some unsorted =>
          match merge_sort Z.le unsorted with
          | (first :: _) as pages =>
              {| b_file_id := item_id; start_page := first;
                 end_page := List.last pages first |}
              :: boundaries_of file_to_pages rest
          | [] => boundaries_of file_to_pages rest
          end
      | None => boundaries_of file_to_pages rest
      end
  end.

Definition get_chapter_boundaries (nav : EPUBNavigator) : list boundary :=
  boundaries_of (group_pages (map_to_list (page_map nav))) (spine nav).

(** ** [json.loads]

    Python's decoder on byte strings: the grammar it accepts (strict mode,
    with the constants [NaN], [Infinity] and [-Infinity]) and the value it
    builds. Floats are kept as their lexeme, a [dict] as its members in
    document order, a [\u] escape as the UTF-8 bytes of its code unit.
    [None] is [JSONDecodeError]. The two other exceptions of the decoder,
    [ValueError] on an integer of more digits than [int()] allows (4300
    unless configured) and [RecursionError] on deep nesting, are not
    modelled. *)

Local Set Warnings "-register-all".

Inductive json : Type :=
| JNull
| JBool (b : bool)
| JInt (n : Z)
| JFloat (lexeme : string)
| JString (s : string)
| JList (l : list json)
| JDict (members : list (string * json)).

Module Json.

(** [WHITESPACE = [ \t\n\r]*] *)
Definition is_ws (c : ascii) : bool :=
  Ascii.eqb c " " || Ascii.eqb c "009" || Ascii.eqb c "010"
  || Ascii.eqb c "013".

Fixpoint skip_ws (s : string) : string :=
  match s with
  | String c s' => if is_ws c then skip_ws s' else s
  | EmptyString => EmptyString
  end.

Definition hex_val (c : ascii) : option N :=
  let n := N_of_ascii c in
  if (48 <=? n)%N && (n <=? 57)%N then Some (n - 48)%N
  else if (97 <=? n)%N && (n <=? 102)%N then Some (n - 87)%N
  else if (65 <=? n)%N && (n <=? 70)%N then Some (n - 55)%N
  else None.

Definition utf8 (cp : N) : string :=
  if (cp <? 128)%N then String (ascii_of_N cp) ""
  else if (cp <? 2048)%N then
    String (ascii_of_N (192 + cp / 64))
      (String (ascii_of_N (128 + cp mod 64)) "")
  else
    String (ascii_of_N (224 + cp / 4096))
      (String (ascii_of_N (128 + (cp / 64) mod 64))
         (String (ascii_of_N (128 + cp mod 64)) "")).

Definition simple_escape (c : ascii) : option ascii :=
  if Ascii.eqb c "034" then Some "034"%char
  else if Ascii.eqb c "\" then Some "\"%char
  else if Ascii.eqb c "/" then Some "/"%char
  else if Ascii.eqb c "b" then Some "008"%char
  else if Ascii.eqb c "f" then Some "012"%char
  else if Ascii.eqb c "n" then Some "010"%char
  else if Ascii.eqb c "r" then Some "013"%char
  else if Ascii.eqb c "t" then Some "009"%char
  else None.

(** The text after an opening quote: the decoded string and what
    follows the closing quote. *)
Fixpoint parse_string (s : string) : option (string * string) :=
  match s with
  | EmptyString => None
  | String c s' =>
      if Ascii.eqb c "034" then Some (EmptyString, s')
      else if Ascii.eqb c "\" then
        match s' with
        | String e s'' =>
            if Ascii.eqb e "u" then
              match s'' with
              | String h1 (String h2 (String h3 (String h4 s4))) =>
                  a ← hex_val h1; b ← hex_val h2;
                  c ← hex_val h3; d ← hex_val h4;
                  '(str, rest) ← parse_string s4;
                  Some (utf8 (((a * 16 + b) * 16 + c) * 16 + d)%N +:+ str,
                        rest)
              | _ => None
              end
            else
              x ← simple_escape e;
              '(str, rest) ← parse_string s'';
              Some (String x str, rest)
        | EmptyString => None
        end
      else if (nat_of_ascii c <? 32)%nat then None
      else
        '(str, rest) ← parse_string s';
        Some (String c str, rest)
  end.

(** The longest prefix of digits, and the rest. *)
Fixpoint span_digits (s : string) : string * string :=
  match s with
  | String c s' =>
      if Py.is_digit c then
        let '(ds, rest) := span_digits s' in (String c ds, rest)
      else (EmptyString, s)
  | EmptyString => (EmptyString, EmptyString)
  end.

(** [(\.\d+)?]: the matched text and the rest. *)
Definition lex_frac (s : string) : string * string :=
  match s with
  | String "." s' =>
      match span_digits s' with
      | (EmptyString, _) => (EmptyString, s)
      | (ds, rest) => (String "." ds, rest)
      end
  | _ => (EmptyString, s)
  end.

(** [([eE][-+]?\d+)?] *)
Definition lex_exp (s : string) : string * string :=
  match s with
  | String e s' =>
      if Ascii.eqb e "e" || Ascii.eqb e "E" then
        let '(sign, s'') :=
          match s' with
          | String "-" r => ("-", r)
          | String "+" r => ("+", r)
          | _ => (EmptyString, s')
          end in
        match span_digits s'' with
        | (EmptyString, _) => (EmptyString, s)
        | (ds, rest) => (String e (sign +:+ ds), rest)
        end
      else (EmptyString, s)
  | EmptyString => (EmptyString, s)
  end.

(** [NUMBER_RE.match]: an optional minus sign, then [0] or a digit from
    [1] to [9] followed by digits, then an optional fraction and an
    optional exponent. No fraction and no exponent: an [int]. *)
Definition lex_number (s : string) : option (json * string) :=
  let '(neg, body) :=
    match s with
    | String "-" r => (true, r)
    | _ => (false, s)
    end in
  match body with
  | String c r =>
      if Py.is_digit c then
        let '(int_part, after_int) :=
          if Ascii.eqb c "0" then ("0", r)
          else let '(ds, rest) := span_digits r in (String c ds, rest) in
        let '(frac, after_frac) := lex_frac after_int in
        let '(exp, rest) := lex_exp after_frac in
        match frac, exp with
        | EmptyString, EmptyString =>
            u ← NilEmpty.uint_of_string int_part;
            Some (JInt (if neg : bool then - Z.of_uint u else Z.of_uint u),
                  rest)
        | _, _ =>
            Some (JFloat ((if neg : bool then "-" else "")
                          +:+ int_part +:+ frac +:+ exp), rest)
        end
      else None
  | EmptyString => None
  end.

Definition constant (word : string) (v : json) (s : string)
    : option (json * string) :=
  if Py.startswith s word then Some (v, Py.drop (String.length word) s)
  else None.

(** [scan_once], [JSONArray] and [JSONObject]. [s] starts at the first
    character of the value, of the first element, of the first key. Each
    call uses one unit of [fuel] and consumes at least one character. *)
Fixpoint parse_value (fuel : nat) (s : string) : option (json * string) :=
  match fuel with
  | O => None
  | S fuel' =>
      match s with
      | String "034" r =>
          '(str, rest) ← parse_string r; Some (JString str, rest)
      | String "{" r =>
          match skip_ws r with
          | String "}" rest => Some (JDict [], rest)
          | r1 => '(ms, rest) ← parse_members fuel' r1; Some (JDict ms, rest)
          end
      | String "[" r =>
          match skip_ws r with
          | String "]" rest => Some (JList [], rest)
          | r1 => '(vs, rest) ← parse_elements fuel' r1; Some (JList vs, rest)
          end
      | String "n" _ => constant "null" JNull s
      | String "t" _ => constant "true" (JBool true) s
      | String "f" _ => constant "false" (JBool false) s
      | String "N" _ => constant "NaN" (JFloat "NaN") s
      | String "I" _ => constant "Infinity" (JFloat "Infinity") s
      | _ =>
          match lex_number s with
          | Some r => Some r
          | None => constant "-Infinity" (JFloat "-Infinity") s
          end
      end
  end
with parse_elements (fuel : nat) (s : string)
    : option (list json * string) :=
  match fuel with
  | O => None
  | S fuel' =>
      '(v, r) ← parse_value fuel' s;
      match skip_ws r with
      | String "]" rest => Some ([v], rest)
      | String "," r1 =>
          '(vs, rest) ← parse_elements fuel' (skip_ws r1);
          Some (v :: vs, rest)
      | _ => None
      end
  end
with parse_members (fuel : nat) (s : string)
    : option (list (string * json) * string) :=
  match fuel with
  | O => None
  | S fuel' =>
      match s with
      | String "034" r =>
          '(k, r1) ← parse_string r;
          match skip_ws r1 with
          | String ":" r2 =>
              '(v, r3) ← parse_value fuel' (skip_ws r2);
              match skip_ws r3 with
              | String "}" rest => Some ([(k, v)], rest)
              | String "," r4 =>
                  '(ms, rest) ← parse_members fuel' (skip_ws r4);
                  Some ((k, v) :: ms, rest)
              | _ => None
              end
          | _ => None
          end
      | _ => None
      end
  end.

(** [json.loads(s)]: one value between optional whitespace. The fuel
    covers every text: a call consumes a character. *)
Definition loads (s : string) : option json :=
  '(v, rest) ← parse_value (2 * String.length s + 2) (skip_ws s);
  if String.eqb (skip_ws rest) "" then Some v else None.

End Json.

(** Writes a JSON text with ['] standing for the double quote. *)
Fixpoint dq (s : string) : string :=
  match s with
  | EmptyString => EmptyString
  | String c s' => String (if Ascii.eqb c "'" then "034"%char else c) (dq s')
  end.

(** ** [CPTExtractor.extract_pages] *)

(** The clean-up of the model's text: one strip of a leading fence, one of
    a trailing fence. *)
Definition clean_response (text : string) : string :=
  let c0 := Py.strip text in
  let c1 := if Py.startswith c0 "```json" then Py.drop 7 c0 else c0 in
  let c2 := if Py.startswith c1 "```" then Py.drop 3 c1 else c1 in
  let c3 := if Py.endswith c2 "```" then Py.drop_end 3 c2 else c2 in
  Py.strip c3.

(** The [try] block around the generation call: [None] is a call (or a
    response) that raises, for which [extract_pages] returns ["[]"]. *)
Definition response_text (outcome : option string) : string :=
  match outcome with
  | Some text => clean_response text
  | None => "[]"
  end.

(** The generation service with the prompt built for it, as a function of
    what the prompt is made of: the chunk, the raw text, the hierarchy
    context ([None] for the empty [dict] of [use_hierarchy = False]) and
    the previous code context. *)
Definition generation : Type :=
  Z → Z → string → option context → option json → option string.

Definition extract_pages (nav : EPUBNavigator) (use_hierarchy : bool)
    (generate : generation) (start_page end_page : Z)
    (previous_code_context : option json) : result string :=
  raw_text ← get_content_by_page_range nav start_page end_page;
  ctx ← (if use_hierarchy
         then Some <$> get_hierarchy_context nav start_page
         else Ok None);
  Ok (response_text
        (generate start_page end_page raw_text ctx previous_code_context)).

(** ** The chunk loop of [main] *)

(** What a written file holds: the raw text, or one [json.dumps] line per
    record. *)
Inductive artifact : Type :=
| RawText (text : string)
| JsonLines (records : list json).

(** The variables the loop carries, and the files written so far, in
    order. *)
Record pipeline_state : Type := {
  all_codes : list json;
  last_code_context : option json;
  written : list (string * artifact)
}.

Definition initial_state : pipeline_state :=
  {| all_codes := []; last_code_context := None; written := [] |}.

(** The loop over the lines: a line [json.loads] rejects is passed over. *)
Fixpoint parse_lines (lines : list string) : list json :=
  match lines with
  | [] => []
  | line :: rest =>
      let line := Py.strip line in
      if String.eqb line "" then parse_lines rest
      else match Json.loads line with
           | Some obj => obj :: parse_lines rest
           | None => parse_lines rest
           end
  end.

(** The fallback on the whole text. *)
Definition parse_whole (text : string) : list json :=
  match Json.loads text with
  | Some (JList l) => l
  | Some (JDict members) => [JDict members]
  | _ => []
  end.

(** [chunk_codes] as it stands at [if chunk_codes:]. *)
Definition parse_chunk (json_response_text : string) : list json :=
  match parse_lines (Py.split_lines (Py.strip json_response_text)) with
  | [] => parse_whole json_response_text
  | chunk_codes => chunk_codes
  end.

Definition chunk_filename (output_dir : string) (current_start current_end : Z)
    (suffix : string) : string :=
  Py.path_join output_dir
    ("cpt_" +:+ Py.str_int current_start +:+ "_" +:+ Py.str_int current_end
     +:+ suffix).

(** One iteration, from the response text on. [last_code_context.get]
    raises [AttributeError] on a record that is no [dict], outside the
    loop's [except json.JSONDecodeError]. Opening and writing the chunk
    file and the debug file are taken to succeed: an [OSError] there (a
    missing output directory) would end the loop as well and is not
    modelled. *)
Definition process_chunk (output_dir : string) (st : pipeline_state)
    (chunk : Z * Z) (json_response_text : string) : result pipeline_state :=
  match parse_chunk json_response_text with
  | [] =>
      Ok {| all_codes := all_codes st;
            last_code_context := last_code_context st;
            written := written st ++
              [(chunk_filename output_dir chunk.1 chunk.2 "_raw_error.txt",
                RawText json_response_text)] |}
  | (first :: _) as chunk_codes =>
      match List.last chunk_codes first with
      | JDict _ as last_code =>
          Ok {| all_codes := all_codes st ++ chunk_codes;
                last_code_context := Some last_code;
                written := written st ++
                  [(chunk_filename output_dir chunk.1 chunk.2 "_chapter.jsonl",
                    JsonLines chunk_codes)] |}
      | _ => Raise AttributeError
      end
  end.

(** The loop [for current_start, current_end in chunks]. *)
Fixpoint run_chunks (nav : EPUBNavigator) (use_hierarchy : bool)
    (generate : generation) (output_dir : string) (chunks : list (Z * Z))
    (st : pipeline_state) : result pipeline_state :=
  match chunks with
  | [] => Ok st
  | chunk :: rest =>
      json_response_text ←
        extract_pages nav use_hierarchy generate chunk.1 chunk.2
          (last_code_context st);
      st' ← process_chunk output_dir st chunk json_response_text;
      run_chunks nav use_hierarchy generate output_dir rest st'
  end.

(** ** Statements about the page map, in the specification's terms *)

(** The page marker a span [id] stands for. *)
Definition marker_of (item_id path sid : string) : option (Z * page_info) :=
  n ← Py.int_of_str (Py.remove_page_ 0 sid);
  Some (n, {| file_id := item_id; full_path := path; anchor_id := sid |}).

(** The page markers of one spine item, in document order: none when the
    item has no manifest entry or its file cannot be read. *)
Definition file_markers (zip : gmap string document) (dir : string)
    (mani : gmap string string) (item_id : string) : list (Z * page_info) :=
  match mani !! item_id with
  | None => []
  | Some href =>
      if String.eqb href "" then []
      else
        let path := if String.eqb dir "" then href
                    else Py.path_join dir href in
        match zip !! path with
        | None => []
        | Some doc =>
            omap (marker_of item_id path)
              (filter (λ s, Py.is_page_marker s = true) (doc_span_ids doc))
        end
  end.

(** The page markers of the book, in spine order. *)
Definition book_markers (zip : gmap string document) (dir : string)
    (mani : gmap string string) (sp : list string) : list (Z * page_info) :=
  sp ≫= file_markers zip dir mani.

(** [page_map[page_num] = {...}] *)
Definition store (m : gmap Z page_info) (kv : Z * page_info)
  : gmap Z page_info := <[kv.1 := kv.2]> m.

(** The markers of page [p], in the order the scan meets them. *)
Definition markers_of_page (p : Z) (markers : list (Z * page_info))
    : list (Z * page_info) :=
  filter (λ m, m.1 = p) markers.

(** "First seen in spine order wins": every page is mapped to the first
    marker the scan meets for it. *)
Definition first_marker_wins (zip : gmap string document) (dir : string)
    (mani : gmap string string) (sp : list string) : Prop :=
  ∀ p, scan_book zip dir mani sp !! p
       = snd <$> head (markers_of_page p (book_markers zip dir mani sp)).

(** A content file with the given page-marker ids, headings and text. *)
Definition file_with (ids h1s : list string) (text : string) : document :=
  {| doc_span_ids := ids; doc_h1 := h1s; doc_h2 := []; doc_h3 := [];
     doc_h4 := []; doc_text := text |}.

(** A two-file book whose front matter repeats the marker of page 1. *)
Definition dup_zip : gmap string document :=
  {[ "OEBPS/front.xhtml" := file_with ["page_1"] [] "front";
     "OEBPS/ch1.xhtml" := file_with ["page_1"; "page_2"] [] "chapter" ]}.

Definition dup_manifest : gmap string string :=
  {[ "front" := "front.xhtml"; "ch1" := "ch1.xhtml" ]}.

Definition dup_spine : list string := ["front"; "ch1"].

(** ** Statements about range extraction, in the specification's terms *)

(** The parsed file of a spine item, when its path resolves and its file
    can be read. *)
Definition item_doc (nav : EPUBNavigator) (item_id : string)
    : option document :=
  match item_path nav item_id with
  | Ok path => read_path nav path
  | Raise _ => None
  end.

(** Every spine file can be read. *)
Definition readable (nav : EPUBNavigator) : Prop :=
  ∀ item_id, item_id ∈ spine nav → is_Some (item_doc nav item_id).

(** The spine from the first occurrence of [start_file] on. *)
Fixpoint from_file (start_file : string) (items : list string)
    : list string :=
  match items with
  | [] => []
  | item_id :: rest =>
      if decide (item_id = start_file) then items
      else from_file start_file rest
  end.

(** The items up to and including the first occurrence of the stop file;
    all of them when there is no stop file, or when it is not among
    them. *)
Fixpoint through_file (stop_file : option string) (items : list string)
    : list string :=
  match items with
  | [] => []
  | item_id :: rest =>
      if decide (stop_file = Some item_id) then [item_id]
      else item_id :: through_file stop_file rest
  end.

(** The files of a range as the code takes them: from the first
    occurrence of the start page's file, through the first occurrence at
    or after it of the file of page [end_page + 1]; through the end of the
    spine when that page has no entry or its file is not met from the
    start file on. *)
Definition range_files (nav : EPUBNavigator) (start_page end_page : Z)
    : list string :=
  match page_map nav !! start_page with
  | Some start_info =>
      through_file (file_id <$> page_map nav !! (end_page + 1))
        (from_file (file_id start_info) (spine nav))
  | None => []
  end.

(** The plain text of the given spine files. *)
Definition texts_of (nav : EPUBNavigator) (items : list string)
    : list string :=
  omap (λ item_id, doc_text <$> item_doc nav item_id) items.

(** The call reads exactly [files], in that order, and returns. *)
Definition touches (nav : EPUBNavigator) (start_page end_page : Z)
    (files : list string) : Prop :=
  ∃ text,
    get_content_by_page_range_reads nav start_page end_page
    = Ok (files, text).

(** The index [{1: (fileA, a1), 2: (fileA, a2), 3: (fileB, a3)}]. *)
Definition scenario_index : gmap Z page_info :=
  {[ 1 := {| file_id := "fileA"; full_path := "OEBPS/a.xhtml";
             anchor_id := "a1" |};
     2 := {| file_id := "fileA"; full_path := "OEBPS/a.xhtml";
             anchor_id := "a2" |};
     3 := {| file_id := "fileB"; full_path := "OEBPS/b.xhtml";
             anchor_id := "a3" |} ]}.

(** The end-to-end scenario: that index over the spine [fileA, fileB]. *)
Definition scenario_nav (docA docB : document) : EPUBNavigator :=
  {| z := {[ "OEBPS/a.xhtml" := docA; "OEBPS/b.xhtml" := docB ]};
     opf_dir := "OEBPS";
     spine := ["fileA"; "fileB"];
     manifest := {[ "fileA" := "a.xhtml"; "fileB" := "b.xhtml" ]};
     page_map := scenario_index |}.

(** The range claim as the specification words it: for every indexed start
    page and every end page, the call returns the joined texts of a run of
    the spine that begins with the start page's file and ends with the
    file of page [end_page + 1], or with the last file of the spine when
    that page has no entry. *)
Definition range_claim (nav : EPUBNavigator) : Prop :=
  ∀ start_page end_page start_info,
    page_map nav !! start_page = Some start_info →
    ∃ files,
      get_content_by_page_range_reads nav start_page end_page
      = Ok (files, Py.join "
" (texts_of nav files))
      ∧ (∃ before after, spine nav = before ++ files ++ after)
      ∧ head files = Some (file_id start_info)
      ∧ match page_map nav !! (end_page + 1) with
        | Some end_info => last files = Some (file_id end_info)
        | None => ∃ before, spine nav = before ++ files
        end.

(** A book whose pages do not follow the spine: the first file carries
    the marker of page 2, the second the marker of page 1, the third the
    marker of page 3. Every file is listed and readable, and the page map
    is the one of the scan. *)
Definition out_of_order_zip : gmap string document :=
  {[ "OEBPS/a.xhtml" := file_with ["page_2"] [] "alpha";
     "OEBPS/b.xhtml" := file_with ["page_1"] [] "beta";
     "OEBPS/c.xhtml" := file_with ["page_3"] [] "gamma" ]}.

Definition out_of_order_manifest : gmap string string :=
  {[ "fileA" := "a.xhtml"; "fileB" := "b.xhtml"; "fileC" := "c.xhtml" ]}.

Definition out_of_order_nav : EPUBNavigator :=
  (open_navigator out_of_order_zip "OEBPS" ["fileA"; "fileB"; "fileC"]
     out_of_order_manifest None true).1.

(** The scenario book with the archive entry of fileB missing and a third
    file after it. *)
Definition unreadable_stop_nav : EPUBNavigator :=
  {| z := {[ "OEBPS/a.xhtml" := file_with ["a1"; "a2"] [] "alpha";
             "OEBPS/c.xhtml" := file_with [] [] "gamma" ]};
     opf_dir := "OEBPS";
     spine := ["fileA"; "fileB"; "fileC"];
     manifest := {[ "fileA" := "a.xhtml"; "fileB" := "b.xhtml";
                    "fileC" := "c.xhtml" ]};
     page_map := scenario_index |}.

(** The claim of the scenario as the specification words it. *)
Definition scenario_claim (nav : EPUBNavigator) : Prop :=
  touches nav 1 2 ["fileA"] ∧ touches nav 2 3 ["fileA"; "fileB"].

(** ** Statements about hierarchy resolution, in the specification's terms *)

Definition or_else (a b : option string) : option string :=
  match a with
  | Some _ => a
  | None => b
  end.

(** The heading of one level a file gives: the last one in the file. *)
Definition file_heading (nav : EPUBNavigator)
    (level : document → list string) (item_id : string) : option string :=
  soup ← item_doc nav item_id; last (level soup).

(** The heading of one level over the files visited, nearest first. *)
Fixpoint nearest_heading (nav : EPUBNavigator)
    (level : document → list string) (items : list string) : option string :=
  match items with
  | [] => None
  | item_id :: rest =>
      or_else (file_heading nav level item_id)
              (nearest_heading nav level rest)
  end.

(** The context after visiting [items], starting from [c]: a level
    resolved in [c] stays, an unresolved one takes the nearest heading. *)
Definition resolve_over (nav : EPUBNavigator) (items : list string)
    (c : context) : context :=
  {| section := or_else (section c) (nearest_heading nav doc_h1 items);
     subsection := or_else (subsection c) (nearest_heading nav doc_h2 items);
     subheading := or_else (subheading c) (nearest_heading nav doc_h3 items);
     topic := or_else (topic c) (nearest_heading nav doc_h4 items);
     section_text := section_text c;
     subsection_text := subsection_text c;
     subheading_text := subheading_text c;
     topic_text := topic_text c |}.

(** The spine walked backward from the first occurrence of [start_file],
    that file included. *)
Definition walk_order (nav : EPUBNavigator) (start_file : string)
    : list string :=
  match index_of start_file (spine nav) with
  | Some i => reverse (take (S i) (spine nav))
  | None => []
  end.

(** No spine item makes [os.path.join] raise. *)
Definition paths_resolve (nav : EPUBNavigator) : Prop :=
  ∀ item_id, item_id ∈ spine nav → ∃ path, item_path nav item_id = Ok path.

(** The hierarchy claim as the specification words it: for every indexed
    page, resolution returns a context, got by visiting the spine backward
    from that page's file, that file included. *)
Definition hierarchy_claim (nav : EPUBNavigator) : Prop :=
  ∀ page_number start_info,
    page_map nav !! page_number = Some start_info →
    ∃ visited c,
      get_hierarchy_context_reads nav page_number = Ok (visited, c)
      ∧ head visited = Some (file_id start_info)
      ∧ c = resolve_over nav visited empty_context.

(** The scenario book read with a page map kept from an older edition,
    whose page 9 is in a file the spine no longer has. *)
Definition older_edition_nav : EPUBNavigator :=
  {| z := {[ "OEBPS/a.xhtml" := file_with ["a1"; "a2"] ["Surgery"] "alpha";
             "OEBPS/b.xhtml" := file_with ["a3"] [] "beta" ]};
     opf_dir := "OEBPS";
     spine := ["fileA"; "fileB"];
     manifest := {[ "fileA" := "a.xhtml"; "fileB" := "b.xhtml" ]};
     page_map :=
       <[9 := {| file_id := "fileZ"; full_path := "OEBPS/z.xhtml";
                 anchor_id := "page_9" |}]> scenario_index |}.

(** A scanned book whose spine begins with a cover item that the manifest
    does not list. *)
Definition unlisted_cover_nav : EPUBNavigator :=
  (open_navigator
     {[ "OEBPS/a.xhtml" := file_with ["page_1"] ["Surgery"] "alpha" ]}
     "OEBPS" ["cover"; "fileA"] {[ "fileA" := "a.xhtml" ]} None true).1.

(** ** Statements about chapter boundaries, in the specification's terms *)

(** The indexed pages a file owns. *)
Definition pages_of (nav : EPUBNavigator) (fid : string) : list Z :=
  (filter (λ it, file_id it.2 = fid) (map_to_list (page_map nav))).*1.

(** [p] lies in the boundary's range. *)
Definition in_range (b : boundary) (p : Z) : Prop :=
  start_page b ≤ p ≤ end_page b.

(** "Every indexed page lies in exactly one boundary's range." *)
Definition ranges_partition (nav : EPUBNavigator) : Prop :=
  ∀ p, is_Some (page_map nav !! p) →
    ∃ b, b ∈ get_chapter_boundaries nav ∧ in_range b p
         ∧ ∀ b', b' ∈ get_chapter_boundaries nav → in_range b' p → b' = b.

(** A book whose first file carries the markers of pages 1 and 3 and whose
    second file carries the marker of page 2. *)
Definition interleaved_nav : EPUBNavigator :=
  {| z := {[ "a.xhtml" := file_with ["page_1"; "page_3"] [] "alpha";
             "b.xhtml" := file_with ["page_2"] [] "beta" ]};
     opf_dir := "";
     spine := ["fileA"; "fileB"];
     manifest := {[ "fileA" := "a.xhtml"; "fileB" := "b.xhtml" ]};
     page_map :=
       scan_book
         {[ "a.xhtml" := file_with ["page_1"; "page_3"] [] "alpha";
            "b.xhtml" := file_with ["page_2"] [] "beta" ]}
         "" {[ "fileA" := "a.xhtml"; "fileB" := "b.xhtml" ]}
         ["fileA"; "fileB"] |}.

(** ** Responses used as examples *)

Definition record (code : string) : json := JDict [("code", JString code)].

(** Two JSON lines and a third one cut off. *)
Definition truncated_response : string :=
  dq "{'code': '10021'}
{'code': '10030'}
{'code': '100".

(** A top-level array of three objects, on one line. *)
Definition array_response : string :=
  dq "[{'code': '10021'}, {'code': '10030'}, {'code': '10035'}]".

(** The same array, one object per line. *)
Definition array_by_line_response : string :=
  dq "[
{'code': '10021'},
{'code': '10030'},
{'code': '10035'}
]".

(** The same array, indented as [json.dumps(.., indent=2)] does. *)
Definition array_indented_response : string :=
  dq "[
  {
    'code': '10021'
  },
  {
    'code': '10030'
  },
  {
    'code': '10035'
  }
]".

(** One object over several lines. *)
Definition object_indented_response : string :=
  dq "{
  'code': '10021'
}".

(** A generation service whose every call raises. *)
Definition failing_generation : generation := λ _ _ _ _ _, None.


(** ** Books used as examples of the edge cases *)

(** The scanned book of the duplicate-marker example. *)
Definition dup_nav : EPUBNavigator :=
  (open_navigator dup_zip "OEBPS" dup_spine dup_manifest None true).1.

(** The scenario book with a cover item in its spine that the manifest
    does not list. *)
Definition unlisted_item_nav : EPUBNavigator :=
  {| z := {[ "OEBPS/a.xhtml" := file_with ["a1"; "a2"] [] "alpha";
             "OEBPS/b.xhtml" := file_with ["a3"] [] "beta" ]};
     opf_dir := "OEBPS";
     spine := ["cover"; "fileA"; "fileB"];
     manifest := {[ "fileA" := "a.xhtml"; "fileB" := "b.xhtml" ]};
     page_map := scenario_index |}.

(** The scenario book read with a page map from an older edition, whose
    page 9 is in a file the spine no longer has. *)
Definition stale_nav : EPUBNavigator :=
  {| z := {[ "OEBPS/a.xhtml" := file_with ["a1"; "a2"] [] "alpha";
             "OEBPS/b.xhtml" := file_with ["a3"] [] "beta" ]};
     opf_dir := "OEBPS";
     spine := ["fileA"; "fileB"];
     manifest := {[ "fileA" := "a.xhtml"; "fileB" := "b.xhtml" ]};
     page_map :=
       <[9 := {| file_id := "fileZ"; full_path := "OEBPS/z.xhtml";
                 anchor_id := "page_9" |}]> scenario_index |}.

(** ** Chunk planning in [main] *)

(** [list(range(start, stop, step))]: [ValueError] for a zero step. *)
Definition py_range (start stop step : Z) : result (list Z) :=
  if decide (step = 0) then Raise ValueError
  else
    let n :=
      if decide (0 < step ∧ start < stop) then
        1 + (stop - 1 - start) / step
      else if decide (step < 0 ∧ stop < start) then
        1 + (start - 1 - stop) / (- step)
      else 0 in
    Ok ((λ i : nat, start + Z.of_nat i * step) <$> seq 0 (Z.to_nat n)).

(** The [else] branch: fixed-size chunks. *)
Definition plan_fixed (start end_ chunk_size : Z) : result (list (Z * Z)) :=
  starts ← py_range start (end_ + 1) chunk_size;
  Ok ((λ current_start,
         (current_start, Z.min (current_start + chunk_size - 1) end_))
      <$> (starts : list Z)).

(** [max(b['start_page'], args.start) <= min(b['end_page'], args.end)] *)
Definition overlaps (start end_ : Z) (b : boundary) : Prop :=
  Z.max (start_page b) start ≤ Z.min (end_page b) end_.

Global Instance overlaps_dec start end_ b : Decision (overlaps start end_ b).
Proof. unfold overlaps. apply _. Defined.

(** The [if args.by_chapter] branch. *)
Definition plan_by_chapter (nav : EPUBNavigator) (start end_ : Z)
    : list (Z * Z) :=
  (λ b, (start_page b, end_page b))
  <$> filter (overlaps start end_) (get_chapter_boundaries nav).

Definition plan_chunks (nav : EPUBNavigator) (by_chapter : bool)
    (start end_ chunk_size : Z) : result (list (Z * Z)) :=
  if by_chapter then Ok (plan_by_chapter nav start end_)
  else plan_fixed start end_ chunk_size.

(** [main] from the planning to the end of the chunk loop. *)
Definition plan_and_run (nav : EPUBNavigator) (use_hierarchy : bool)
    (generate : generation) (output_dir : string) (by_chapter : bool)
    (start end_ chunk_size : Z) : result pipeline_state :=
  chunks ← plan_chunks nav by_chapter start end_ chunk_size;
  run_chunks nav use_hierarchy generate output_dir chunks initial_state.

(** Page [p] lies in the chunk. *)
Definition in_chunk (p : Z) (chunk : Z * Z) : Prop :=
  chunk.1 ≤ p ≤ chunk.2.

(** ** Statements about the chunk loop *)

(** The records of the chunk files among the written files, in order. *)
Definition records_written (files : list (string * artifact)) : list json :=
  files ≫= λ file,
    match file.2 with
    | JsonLines records => records
    | RawText _ => []
    end.

(** The file one chunk leaves: its records under the chunk name, or the
    raw text under the debug name. *)
Definition chunk_artifact (output_dir : string) (chunk : Z * Z)
    (file : string * artifact) : Prop :=
  (∃ records, records ≠ []
     ∧ file = (chunk_filename output_dir chunk.1 chunk.2 "_chapter.jsonl",
               JsonLines records))
  ∨ (∃ text,
       file = (chunk_filename output_dir chunk.1 chunk.2 "_raw_error.txt",
               RawText text)).

(** The carried context is the last record emitted so far, and a
    [dict]. *)
Definition context_is_last_record (st : pipeline_state) : Prop :=
  last_code_context st = last (all_codes st)
  ∧ ∀ c, last_code_context st = Some c → ∃ members, c = JDict members.

(** ** The name of the combined output in [main] *)

Module PyPath.

(** [s.rfind(c)] for a character: the last position of [c]. *)
Fixpoint rfind (c : ascii) (s : string) : option nat :=
  match s with
  | EmptyString => None
  | String a s' =>
      match rfind c s' with
      | Some i => Some (S i)
      | None => if Ascii.eqb a c then Some O else None
      end
  end.

(** [p.rfind('/') + 1] *)
Definition after_last_slash (p : string) : nat :=
  match rfind "/" p with
  | Some i => S i
  | None => O
  end.

(** [s.rstrip('/')] *)
Fixpoint rstrip_slash (s : string) : string :=
  match s with
  | String c s' =>
      match rstrip_slash s' with
      | EmptyString =>
          if Ascii.eqb c "/" then EmptyString else String c EmptyString
      | r => String c r
      end
  | EmptyString => EmptyString
  end.

(** [posixpath.dirname(p)] *)
Definition dirname (p : string) : string :=
  let head := Py.take (after_last_slash p) p in
  if negb (String.eqb head "")
     && negb (Py.all_chars (λ c, Ascii.eqb c "/") head)
  then rstrip_slash head else head.

(** [posixpath.basename(p)] *)
Definition basename (p : string) : string :=
  Py.drop (after_last_slash p) p.

(** [posixpath.splitext(p)]: the extension starts at the last dot of the
    last component, unless only dots come before it there. *)
Definition splitext (p : string) : string * string :=
  match rfind "." p with
  | Some dot =>
      let first := after_last_slash p in
      if (first <=? dot)%nat
         && negb (Py.all_chars (λ c, Ascii.eqb c ".")
                    (Py.take (dot - first) (Py.drop first p)))
      then (Py.take dot p, Py.drop dot p)
      else (p, EmptyString)
  | None => (p, EmptyString)
  end.

(** [sub in s] *)
Fixpoint contains (s sub : string) : bool :=
  Py.startswith s sub
  || match s with
     | String _ s' => contains s' sub
     | EmptyString => false
     end.

End PyPath.

(** "Determine final filename based on actual processed range": the range
    is stamped into the name unless the name already holds it. *)
Definition stamped_output (output : string) (chunks : list (Z * Z))
    : string :=
  match chunks with
  | [] => output
  | first :: _ =>
      let actual_start := first.1 in
      let actual_end := (List.last chunks first).2 in
      let dirname := PyPath.dirname output in
      let basename := PyPath.basename output in
      let '(name, ext) := PyPath.splitext basename in
      let stamp :=
        "_" +:+ Py.str_int actual_start +:+ "_" +:+ Py.str_int actual_end in
      if negb (PyPath.contains name stamp)
      then Py.path_join dirname (name +:+ stamp +:+ ext)
      else output
  end.

(** "Ensure extension is .jsonl" *)
Definition final_output_name (output : string) (chunks : list (Z * Z))
    : string :=
  let final_output := stamped_output output chunks in
  if Py.endswith final_output ".json" then
    Py.drop_end 5 final_output +:+ ".jsonl"
  else if negb (Py.endswith final_output ".jsonl") then
    final_output +:+ ".jsonl"
  else final_output.

(** ** [jsonl_to_csv] and [json_to_csv] *)

Definition fieldnames : list string :=
  ["code"; "code_description"; "code_type"; "section"; "section_text";
   "subsection"; "subsection_text"; "subheading"; "subheading_text";
   "topic"; "topic_text"; "code_version"].

(** [d.get(k)] on the [dict] built from [members]: a repeated key has its
    last value. *)
Fixpoint dict_get (k : string) (members : list (string * json))
    : option json :=
  match members with
  | [] => None
  | (k', v) :: rest =>
      match dict_get k rest with
      | Some v' => Some v'
      | None => if String.eqb k' k then Some v else None
      end
  end.

(** [row = {k: entry.get(k, "") for k in fieldnames}], as the cells
    [writer.writerow(row)] writes, in column order. [entry.get] raises
    [AttributeError] on an entry that is no [dict]. *)
Definition csv_row (entry : json) : result (list json) :=
  match entry with
  | JDict members =>
      Ok ((λ k, default (JString "") (dict_get k members)) <$> fieldnames)
  | _ => Raise AttributeError
  end.

(** The loop over the lines of one JSONL file, inside the file's [try]:
    the rows written. A line that is not JSON is passed over; an exception
    from the row leaves the loop, and the file, through
    [except Exception]. *)
Fixpoint convert_lines (lines : list string) : list (list json) :=
  match lines with
  | [] => []
  | line :: rest =>
      let line := Py.strip line in
      if String.eqb line "" then convert_lines rest
      else
        match Json.loads line with
        | None => convert_lines rest
        | Some entry =>
            match csv_row entry with
            | Ok row => row :: convert_lines rest
            | Raise _ => []
            end
        end
  end.

(** The rows [jsonl_to_csv] writes after the header, for the files to
    process given by name with their lines ([None]: a file that cannot be
    opened), taken in the order of [sorted]. *)
Definition jsonl_to_csv (files : list (string * option (list string)))
    : list (list json) :=
  merge_sort (λ f g, String.le f.1 g.1) files ≫= λ file,
    match file.2 with
    | Some lines => convert_lines lines
    | None => []
    end.

(** The loop over the entries of one JSON file in [json_to_csv]. *)
Fixpoint convert_entries (entries : list json) : list (list json) :=
  match entries with
  | [] => []
  | entry :: rest =>
      match csv_row entry with
      | Ok row => row :: convert_entries rest
      | Raise _ => []
      end
  end.

(** The rows [json_to_csv] writes for one file, given by its text. *)
Definition convert_json_file (text : string) : list (list json) :=
  match Json.loads text with
  | Some (JList entries) => convert_entries entries
  | _ => []
  end.

(** ** [main] *)

(** [main] after the arguments are parsed and the extractor is built: the
    planning, the chunk loop with the chunk files written beside
    [args.output], and the combined output unless it is skipped. *)
Definition main (nav : EPUBNavigator) (use_hierarchy : bool)
    (generate : generation) (output : string)
    (by_chapter skip_combined_output : bool) (start end_ chunk_size : Z)
    : result pipeline_state :=
  chunks ← plan_chunks nav by_chapter start end_ chunk_size;
  st ← run_chunks nav use_hierarchy generate (PyPath.dirname output)
         (chunks : list (Z * Z)) initial_state;
  Ok (if skip_combined_output then st
      else {| all_codes := all_codes st;
              last_code_context := last_code_context st;
              written := written st ++
                [(final_output_name output chunks,
                  JsonLines (all_codes st))] |}).
(** * Properties *)

(** ** The Python built-ins on examples *)

Example strip_ex : Py.strip "  ab c
 " = "ab c".
Proof. reflexivity. Qed.

Example split_ex : Py.split_lines "a
b
" = ["a"; "b"; ""].
Proof. reflexivity. Qed.

Example int_ex : Py.int_of_str " -1_000 " = Some (-1000)
  ∧ Py.int_of_str "12_" = None ∧ Py.int_of_str "" = None
  ∧ Py.int_of_str "007" = Some 7 ∧ Py.str_int (-42) = "-42".
Proof. vm_compute. auto. Qed.

Example marker_ex : Py.is_page_marker "page_12" = true
  ∧ Py.is_page_marker "page_" = false ∧ Py.is_page_marker "xpage_1" = false
  ∧ Py.is_page_marker "page_1a" = false
  ∧ Py.remove_page_ 0 "page_12" = "12".
Proof. vm_compute. auto. Qed.

Example json_ex1 :
  Json.loads (dq "{'code': '10021', 'n': [1, -2.5e3, null]}")
  = Some (JDict [("code", JString "10021");
                 ("n", JList [JInt 1; JFloat "-2.5e3"; JNull])]).
Proof. vm_compute. reflexivity. Qed.

Example json_ex2 :
  Json.loads "[]" = Some (JList []) ∧ Json.loads " {} " = Some (JDict [])
  ∧ Json.loads "[1,]" = None ∧ Json.loads (dq "{'a': 1},") = None
  ∧ Json.loads "01" = None ∧ Json.loads "" = None
  ∧ Json.loads (dq "{'a': 'x") = None ∧ Json.loads "[" = None
  ∧ Json.loads (dq "'a\nA'") = Some (JString "a
A")
  ∧ Json.loads (dq "{'a': {'b': [[], {}]}, 'c': true}")
    = Some (JDict [("a", JDict [("b", JList [JList []; JDict []])]);
                   ("c", JBool true)]).
Proof. vm_compute. repeat split. Qed.

Example json_nested :
  Json.loads "[[[[[[]]]], [[]], [1, [2, [3]]]]]"
  = Some (JList [JList [JList [JList [JList [JList []]]];
                        JList [JList []];
                        JList [JInt 1; JList [JInt 2; JList [JInt 3]]]]]).
Proof. vm_compute. reflexivity. Qed.

Example clean_response_ex :
  clean_response "```json
[]
```
" = "[]"
  ∧ clean_response "  plain text " = "plain text"
  ∧ clean_response "```
x```" = "x".
Proof. vm_compute. repeat split. Qed.

(** ** [int(str(n)) = n] *)

Section int_str.
Import Py.

Lemma digit_not_space c : is_digit c = true → is_space c = false.
Proof. destruct c as [[] [] [] [] [] [] [] []]; vm_compute; congruence. Qed.

Lemma uint_string_digits d :
  all_chars is_digit (NilEmpty.string_of_uint d) = true.
Proof. induction d; simpl; auto. Qed.

Lemma rstrip_no_space s :
  all_chars (λ c, negb (is_space c)) s = true → rstrip s = s.
Proof.
  induction s as [|c s IH]; simpl; [done|].
  intros [Hc Hs]%andb_true_iff. rewrite IH by done.
  apply negb_true_iff in Hc. rewrite Hc. by destruct s.
Qed.

Lemma strip_no_space s :
  all_chars (λ c, negb (is_space c)) s = true → strip s = s.
Proof.
  intros H. unfold strip.
  assert (lstrip s = s) as ->; [|by apply rstrip_no_space].
  destruct s as [|c s]; simpl in *; [done|].
  apply andb_true_iff in H as [Hc _]. apply negb_true_iff in Hc.
  by rewrite Hc.
Qed.

Lemma digits_no_space s :
  all_chars is_digit s = true →
  all_chars (λ c, negb (is_space c)) s = true.
Proof.
  induction s as [|c s IH]; simpl; [done|].
  intros [Hc Hs]%andb_true_iff.
  by rewrite (digit_not_space c Hc), IH.
Qed.

Lemma not_space_not_c_space c : is_space c = false → is_c_space c = false.
Proof. destruct c as [[] [] [] [] [] [] [] []]; vm_compute; congruence. Qed.

Lemma digit_not_c_space c : is_digit c = true → is_c_space c = false.
Proof. intros H. by apply not_space_not_c_space, digit_not_space. Qed.

Lemma rskip_no_space s :
  all_chars (λ c, negb (is_space c)) s = true → rskip s = s.
Proof.
  induction s as [|c s IH]; simpl; [done|].
  intros [Hc Hs]%andb_true_iff. rewrite IH by done.
  apply negb_true_iff, not_space_not_c_space in Hc. rewrite Hc.
  by destruct s.
Qed.

Lemma int_strip_no_space s :
  all_chars (λ c, negb (is_space c)) s = true → int_strip s = s.
Proof.
  intros H. unfold int_strip.
  assert (lskip s = s) as ->; [|by apply rskip_no_space].
  destruct s as [|c s]; simpl in *; [done|].
  apply andb_true_iff in H as [Hc _].
  apply negb_true_iff, not_space_not_c_space in Hc.
  by rewrite Hc.
Qed.

Lemma int_digits_all s :
  all_chars is_digit s = true → int_digits true s = Some s.
Proof.
  induction s as [|c s IH]; simpl; [done|].
  intros [Hc Hs]%andb_true_iff. by rewrite Hc, IH.
Qed.

Lemma int_digits_start c s :
  all_chars is_digit (String c s) = true →
  int_digits false (String c s) = Some (String c s).
Proof.
  simpl. intros [Hc Hs]%andb_true_iff. by rewrite Hc, int_digits_all.
Qed.

Lemma pos_uint_string p :
  ∃ c s, NilEmpty.string_of_uint (Pos.to_uint p) = String c s
         ∧ is_digit c = true ∧ c ≠ "-"%char ∧ c ≠ "+"%char.
Proof.
  pose proof (DecimalPos.Unsigned.of_to p) as Hp.
  pose proof (uint_string_digits (Pos.to_uint p)) as Hd.
  destruct (Pos.to_uint p) eqn:E; simpl in *; [done|..];
    eexists _, _; (split; [reflexivity|]); repeat split; done.
Qed.

Lemma Z_of_pos_uint p : Z.of_uint (Pos.to_uint p) = Z.pos p.
Proof.
  unfold Z.of_uint. by rewrite DecimalPos.Unsigned.of_to.
Qed.

Lemma int_of_str_pos p :
  int_of_str (NilEmpty.string_of_uint (Pos.to_uint p)) = Some (Z.pos p).
Proof.
  pose proof (uint_string_digits (Pos.to_uint p)) as Hd.
  destruct (pos_uint_string p) as (c & s & E & Hc & Hm & Hp).
  unfold int_of_str. rewrite int_strip_no_space by by apply digits_no_space.
  rewrite E in *.
  assert ((match String c s with
           | String "-" r => (true, r)
           | String "+" r => (false, r)
           | _ => (false, String c s)
           end) = (false, String c s)) as ->.
  { destruct c as [[] [] [] [] [] [] [] []]; done. }
  rewrite int_digits_start by done. rewrite <- E. simpl.
  rewrite NilEmpty.usu. simpl. by rewrite Z_of_pos_uint.
Qed.

(** [int()] undoes [str()] on every [int]. *)
Lemma int_of_str_str_int n : int_of_str (str_int n) = Some n.
Proof.
  destruct n as [|p|p]; [done|apply int_of_str_pos|].
  pose proof (uint_string_digits (Pos.to_uint p)) as Hd.
  unfold str_int, int_of_str.
  rewrite int_strip_no_space
    by (simpl; by rewrite digits_no_space).
  destruct (pos_uint_string p) as (c & s & E & Hc & Hm & Hp).
  cbv zeta. cbv iota. rewrite E in *. rewrite int_digits_start by done.
  rewrite <- E. simpl. rewrite NilEmpty.usu. simpl.
  by rewrite Z_of_pos_uint.
Qed.

End int_str.

(** ** The page map: which marker a page keeps *)

Section page_map_build.
Import Py.

Lemma remove_page__id s :
  all_chars (λ c, negb (Ascii.eqb c "p")) s = true → remove_page_ 0 s = s.
Proof.
  induction s as [|c s IH]; [done|].
  intros [Hc Hs]%andb_true_iff.
  change (remove_page_ 0 (String c s))
    with (if startswith (String c s) "page_" then remove_page_ 4 s
          else String c (remove_page_ 0 s)).
  assert (startswith (String c s) "page_" = false) as ->.
  { apply negb_true_iff in Hc. simpl. by rewrite Hc. }
  by rewrite IH.
Qed.

Lemma marker_tail_no_p seen s :
  digits_then_end seen s = true →
  all_chars (λ c, negb (Ascii.eqb c "p")) s = true.
Proof.
  revert seen. induction s as [|c s IH]; intros seen; simpl; [done|].
  destruct (is_digit c) eqn:Hd.
  - intros H. rewrite (IH _ H), andb_true_r.
    destruct c as [[] [] [] [] [] [] [] []]; done.
  - intros [[_ Hc%Ascii.eqb_eq]%andb_true_iff Hs%String.eqb_eq]%andb_true_iff.
    by subst.
Qed.

Lemma marker_tail_rskip s :
  digits_then_end true s = true →
  ∃ ds, rskip s = ds ∧ all_chars is_digit ds = true.
Proof.
  induction s as [|c s IH]; simpl; [by exists ""|].
  destruct (is_digit c) eqn:Hd.
  - intros H. destruct (IH H) as (ds & -> & Hds).
    exists (String c ds). rewrite (digit_not_c_space c Hd). simpl.
    rewrite Hd, Hds. by destruct ds.
  - intros [Hc%Ascii.eqb_eq Hs%String.eqb_eq]%andb_true_iff. subst.
    by exists "".
Qed.

Lemma uint_of_digits ds :
  all_chars is_digit ds = true → is_Some (NilEmpty.uint_of_string ds).
Proof.
  induction ds as [|c ds IH]; simpl; [by eexists|].
  intros [Hc Hs]%andb_true_iff. destruct (IH Hs) as [u ->].
  destruct c as [[] [] [] [] [] [] [] []]; try done; by eexists.
Qed.

Lemma startswith_drop s p :
  startswith s p = true → s = p +:+ drop (String.length p) s.
Proof.
  revert s. induction p as [|a p IH]; intros [|b s]; simpl; try done.
  intros [->%Ascii.eqb_eq Hs]%andb_true_iff.
  unfold String.app. simpl. f_equal. by apply IH.
Qed.

Lemma marker_has_number sid :
  is_page_marker sid = true →
  is_Some (int_of_str (remove_page_ 0 sid)).
Proof.
  unfold is_page_marker.
  intros [Hp Ht]%andb_true_iff.
  apply startswith_drop in Hp. simpl String.length in Hp.
  set (r := drop 5 sid) in *. rewrite Hp. clearbody r. clear Hp.
  change (remove_page_ 0 ("page_" +:+ r)) with (remove_page_ 0 r).
  rewrite remove_page__id by by eapply marker_tail_no_p.
  destruct r as [|c r]; [done|]. simpl in Ht.
  destruct (is_digit c) eqn:Hd; [|done].
  destruct (marker_tail_rskip r Ht) as (ds & Hds & Hall).
  unfold int_of_str, int_strip. simpl lskip.
  rewrite (digit_not_c_space c Hd).
  assert (rskip (String c r) = String c ds) as ->.
  { simpl. rewrite Hds, (digit_not_c_space c Hd). by destruct ds. }
  assert ((match String c ds with
           | String "-" r => (true, r)
           | String "+" r => (false, r)
           | _ => (false, String c ds)
           end) = (false, String c ds)) as ->.
  { destruct c as [[] [] [] [] [] [] [] []]; done. }
  assert (all_chars is_digit (String c ds) = true) as Hcd
    by (simpl; by rewrite Hd).
  rewrite int_digits_start by done.
  destruct (uint_of_digits _ Hcd) as [u Hu].
  simpl. simpl in Hu. rewrite Hu. by eexists.
Qed.

End page_map_build.

Lemma scan_spans_store item_id path ids pm :
  Forall (λ s, Py.is_page_marker s = true) ids →
  scan_spans item_id path ids pm
  = foldl store pm (omap (marker_of item_id path) ids).
Proof.
  revert pm. induction ids as [|sid ids IH]; intros pm Hall; [done|].
  inversion_clear Hall as [|?? Hm Hrest].
  destruct (marker_has_number sid Hm) as [n Hn].
  simpl. unfold marker_of at 1. rewrite Hn. simpl. by rewrite IH.
Qed.

Lemma scan_spine_store zip dir mani items pm :
  scan_spine zip dir mani items pm
  = foldl store pm (book_markers zip dir mani items).
Proof.
  unfold book_markers.
  revert pm. induction items as [|item items IH]; intros pm; [done|].
  rewrite bind_cons, foldl_app. simpl. unfold file_markers.
  destruct (mani !! item) as [href|]; [|by rewrite IH].
  destruct (String.eqb href ""); [by rewrite IH|].
  destruct (zip !! _) as [doc|]; [|by rewrite IH].
  rewrite IH. f_equal. apply scan_spans_store.
  apply Forall_forall. by intros s [? _]%list_elem_of_filter.
Qed.

Lemma foldl_store_lookup (l : list (Z * page_info)) acc p :
  foldl store acc l !! p
  = match last (markers_of_page p l) with
    | Some m => Some m.2
    | None => acc !! p
    end.
Proof.
  unfold markers_of_page.
  induction l as [|x l IH] using rev_ind; [done|].
  rewrite foldl_app, filter_app. simpl. unfold store at 1.
  destruct (decide (x.1 = p)) as [Hx|Hx].
  - rewrite filter_cons_True by done. rewrite filter_nil, last_snoc.
    by rewrite Hx, lookup_insert_eq.
  - rewrite filter_cons_False by done. rewrite filter_nil, app_nil_r.
    by rewrite lookup_insert_ne.
Qed.

(** C2 (amended). A page matched by several page-boundary markers during
    the build scan is mapped to the last marker the scan meets for it, in
    spine order and then document order; a page with no marker has no
    entry. The scan is a total function: a duplicate raises nothing. *)
Theorem page_map_last_marker_wins zip dir mani sp writable p :
  (_build_page_map zip dir sp mani None writable).1 !! p
  = snd <$> last (markers_of_page p (book_markers zip dir mani sp)).
Proof.
  unfold _build_page_map, scan_book. cbn [fst].
  rewrite scan_spine_store, foldl_store_lookup.
  by destruct (last _).
Qed.

(** C2 as stated fails: in the two-file book whose front matter repeats
    the marker of page 1, page 1 is not mapped to the first marker seen. *)
Lemma first_marker_wins_fails :
  ¬ first_marker_wins dup_zip "OEBPS" dup_manifest dup_spine.
Proof.
  intros H. specialize (H 1). vm_compute in H. discriminate H.
Qed.

Example dup_page_1 :
  scan_book dup_zip "OEBPS" dup_manifest dup_spine !! 1
  = Some {| file_id := "ch1"; full_path := "OEBPS/ch1.xhtml";
            anchor_id := "page_1" |}
  ∧ head (markers_of_page 1 (book_markers dup_zip "OEBPS" dup_manifest
                               dup_spine))
    = Some (1, {| file_id := "front"; full_path := "OEBPS/front.xhtml";
                  anchor_id := "page_1" |}).
Proof. vm_compute. done. Qed.

(** ** The page-map cache *)

Lemma coerce_keys_dump (l : list (Z * page_info)) acc :
  coerce_keys (prod_map Py.str_int id <$> l) acc = Some (foldl store acc l).
Proof.
  revert acc. induction l as [|[k v] l IH]; intros acc; [done|].
  simpl. rewrite int_of_str_str_int. simpl. apply IH.
Qed.

Lemma foldl_store_union (l : list (Z * page_info)) acc :
  foldl store acc l = list_to_map (reverse l) ∪ acc.
Proof.
  revert acc. induction l as [|[k v] l IH]; intros acc; simpl.
  - by rewrite (left_id_L ∅ (∪)).
  - rewrite IH, reverse_cons, list_to_map_app. unfold store. simpl.
    rewrite <- (assoc_L (∪)). f_equal.
    by rewrite insert_union_singleton_l, insert_empty.
Qed.

Lemma foldl_store_map_to_list (pm : gmap Z page_info) :
  foldl store ∅ (map_to_list pm) = pm.
Proof.
  rewrite foldl_store_union, (right_id_L ∅ (∪)).
  rewrite <- (list_to_map_to_list pm) at 2.
  apply list_to_map_proper.
  - rewrite fmap_reverse, reverse_Permutation.
    apply NoDup_fst_map_to_list.
  - apply reverse_Permutation.
Qed.

(** C6. A page map built by a full scan and written to the cache is read
    back identical: the keys, written as decimal strings, are coerced back
    to the same integers, and every page keeps its location record. The
    archive, the spine and the manifest given at the second construction
    play no part. *)
Theorem page_map_cache_round_trip zip dir sp mani zip' dir' sp' mani' w :
  let built := _build_page_map zip dir sp mani None true in
  built.1 = scan_book zip dir mani sp
  ∧ built.2 = Some (dump_page_map built.1)
  ∧ _build_page_map zip' dir' sp' mani' built.2 w = (built.1, built.2).
Proof.
  simpl. split; [done|]. split; [done|].
  unfold _build_page_map, dump_page_map.
  by rewrite coerce_keys_dump, foldl_store_map_to_list.
Qed.

(** ** Range extraction *)

(** C9. When the start page has no entry in the page map, the call returns
    the string naming the missing page, whatever the end page; it reads no
    file and raises nothing. *)
Theorem missing_start_page_reported nav start_page end_page :
  page_map nav !! start_page = None →
  get_content_by_page_range nav start_page end_page
  = Ok ("Error: Start page " +:+ Py.str_int start_page +:+ " not found.")
  ∧ touches nav start_page end_page [].
Proof.
  intros H.
  unfold touches, get_content_by_page_range, get_content_by_page_range_reads.
  rewrite H. split; [done|by eexists].
Qed.

Lemma missing_start_page_reported_witness :
  get_content_by_page_range (scenario_nav (file_with [] [] "alpha")
                               (file_with [] [] "beta")) 7 9
  = Ok "Error: Start page 7 not found."
  ∧ touches (scenario_nav (file_with [] [] "alpha")
               (file_with [] [] "beta")) 7 9 [].
Proof.
  apply (missing_start_page_reported
           (scenario_nav (file_with [] [] "alpha") (file_with [] [] "beta"))
           7 9).
  vm_compute. reflexivity.
Defined.

Lemma item_doc_read nav item_id :
  is_Some (item_doc nav item_id) →
  ∃ path soup, item_path nav item_id = Ok path
               ∧ read_path nav path = Some soup
               ∧ item_doc nav item_id = Some soup.
Proof.
  unfold item_doc. intros [soup H].
  destruct (item_path nav item_id) as [path|]; [|done]. eauto.
Qed.

Lemma collect_range_collecting nav start_file end_file items :
  (∀ i, i ∈ items → is_Some (item_doc nav i)) →
  collect_range nav start_file end_file true items
  = Ok (through_file end_file items,
        texts_of nav (through_file end_file items)).
Proof.
  induction items as [|item rest IH]; intros Hr; [done|].
  destruct (item_doc_read nav item) as (path & soup & Hp & Hs & Hd);
    [apply Hr; left|].
  cbn [collect_range through_file]. rewrite Hp. cbn. rewrite Hs.
  assert ((if String.eqb item start_file then true else true) = true) as ->
    by by destruct (String.eqb _ _).
  unfold texts_of.
  case_bool_decide as He.
  - rewrite decide_True by done. cbn. by rewrite Hd.
  - rewrite decide_False by done. rewrite IH by (intros; apply Hr; by right).
    cbn. by rewrite Hd.
Qed.

Lemma collect_range_spec nav start_file end_file items :
  (∀ i, i ∈ items → is_Some (item_doc nav i)) →
  collect_range nav start_file end_file false items
  = Ok (through_file end_file (from_file start_file items),
        texts_of nav (through_file end_file (from_file start_file items))).
Proof.
  induction items as [|item rest IH]; intros Hr; [done|].
  destruct (item_doc_read nav item) as (path & soup & Hp & Hs & Hd);
    [apply Hr; left|].
  cbn [collect_range from_file]. rewrite Hp. cbn.
  destruct (String.eqb item start_file) eqn:E.
  - apply String.eqb_eq in E. rewrite decide_True by done.
    cbn. rewrite Hs. cbn [through_file]. unfold texts_of.
    case_bool_decide as He.
    + rewrite decide_True by done. cbn. by rewrite Hd.
    + rewrite decide_False by done.
      rewrite collect_range_collecting by (intros; apply Hr; by right).
      cbn. by rewrite Hd.
  - apply String.eqb_neq in E. rewrite decide_False by done.
    cbn. apply IH. intros; apply Hr; by right.
Qed.

Lemma through_file_None items : through_file None items = items.
Proof. induction items; simpl; [done|]. by f_equal. Qed.

Lemma from_file_subset start_file items i :
  i ∈ from_file start_file items → i ∈ items.
Proof.
  induction items as [|x l IH]; simpl; [done|].
  case_decide; [done|]. intros ?. right. auto.
Qed.

Lemma through_file_subset stop_file items i :
  i ∈ through_file stop_file items → i ∈ items.
Proof.
  induction items as [|x l IH]; simpl; [done|].
  case_decide.
  - intros ->%list_elem_of_singleton. by left.
  - intros [->|?]%elem_of_cons; [by left|right; auto].
Qed.

Lemma texts_of_length nav items :
  (∀ i, i ∈ items → is_Some (item_doc nav i)) →
  length (texts_of nav items) = length items.
Proof.
  unfold texts_of. induction items as [|x l IH]; intros H; [done|].
  destruct (H x) as [soup Hs]; [by left|].
  cbn. rewrite Hs. cbn. f_equal. apply IH. intros; apply H; by right.
Qed.

Lemma through_file_not_met stop_file items :
  stop_file ∉ items → through_file (Some stop_file) items = items.
Proof.
  induction items as [|x l IH]; [done|].
  intros [Hne Hnot]%not_elem_of_cons. simpl.
  rewrite decide_False by congruence. by rewrite IH.
Qed.

Lemma through_file_met stop_file before after :
  stop_file ∉ before →
  through_file (Some stop_file) (before ++ stop_file :: after)
  = before ++ [stop_file].
Proof.
  induction before as [|x l IH]; simpl.
  - intros _. by rewrite decide_True.
  - intros [Hne Hnot]%not_elem_of_cons.
    rewrite decide_False by congruence. by rewrite IH.
Qed.

(** C3 (amended). For an indexed start page and any end page, when every
    spine file can be read, the call reads the spine files from the start
    page's file through the first occurrence, at or after it, of the file
    of page [end_page + 1], that file included, in spine order, and
    returns their plain texts joined by newlines, none left out. When
    [end_page + 1] has no entry, or when its file does not occur from the
    start file on (pages that do not follow the spine), these are all the
    files from the start file to the end of the spine. *)
Theorem range_is_start_file_through_stop_file nav start_page end_page :
  is_Some (page_map nav !! start_page) →
  readable nav →
  get_content_by_page_range_reads nav start_page end_page
  = Ok (range_files nav start_page end_page,
        Py.join "
" (texts_of nav (range_files nav start_page end_page)))
  ∧ length (texts_of nav (range_files nav start_page end_page))
    = length (range_files nav start_page end_page)
  ∧ (∀ start_info, page_map nav !! start_page = Some start_info →
       match page_map nav !! (end_page + 1) with
       | None =>
           range_files nav start_page end_page
           = from_file (file_id start_info) (spine nav)
       | Some end_info =>
           (file_id end_info ∉ from_file (file_id start_info) (spine nav) →
            range_files nav start_page end_page
            = from_file (file_id start_info) (spine nav))
           ∧ (∀ before after,
                from_file (file_id start_info) (spine nav)
                = before ++ file_id end_info :: after →
                file_id end_info ∉ before →
                range_files nav start_page end_page
                = before ++ [file_id end_info])
       end).
Proof.
  intros [si Hsi] Hr. unfold get_content_by_page_range_reads, range_files.
  rewrite Hsi. split; [|split].
  - by rewrite collect_range_spec.
  - apply texts_of_length. intros i Hi. apply Hr.
    by eapply from_file_subset, through_file_subset.
  - intros ? [= <-].
    destruct (page_map nav !! (end_page + 1)) as [ei|]; cbn.
    + split.
      * apply through_file_not_met.
      * intros before after -> Hnot. by apply through_file_met.
    + apply through_file_None.
Qed.

Lemma range_is_start_file_through_stop_file_witness :
  get_content_by_page_range_reads
    (scenario_nav (file_with [] [] "alpha") (file_with [] [] "beta")) 1 2
  = Ok (["fileA"; "fileB"], "alpha
beta").
Proof.
  refine (proj1 (range_is_start_file_through_stop_file
                   (scenario_nav (file_with [] [] "alpha")
                      (file_with [] [] "beta")) 1 2 _ _)).
  - vm_compute. by eexists.
  - intros i Hi. cbn in Hi.
    apply elem_of_cons in Hi as [->|Hi]; [vm_compute; by eexists|].
    apply elem_of_cons in Hi as [->|Hi]; [vm_compute; by eexists|].
    by apply elem_of_nil in Hi.
Defined.

(** C3 as stated fails: in the scanned book whose pages do not follow the
    spine, the call for page 1 alone reads the second and the third file;
    the file of page 2, the first of the spine, is not where it ends. *)
Lemma range_claim_fails : ¬ range_claim out_of_order_nav.
Proof.
  intros H.
  destruct (H 1 1 {| file_id := "fileB"; full_path := "OEBPS/b.xhtml";
                     anchor_id := "page_1" |})
    as (files & Hget & _ & _ & Hlast); [vm_compute; reflexivity|].
  assert (get_content_by_page_range_reads out_of_order_nav 1 1
          = Ok (["fileB"; "fileC"], "beta
gamma")) as Hcode by (vm_compute; reflexivity).
  rewrite Hcode in Hget. injection Hget as <- _.
  vm_compute in Hlast. discriminate Hlast.
Qed.

(** Outside the amended statement: a stop file that cannot be read does
    not stop the walk, the [break] being inside the [try]. *)
Example unreadable_stop_file_is_read_past :
  get_content_by_page_range_reads unreadable_stop_nav 1 2
  = Ok (["fileA"; "fileB"; "fileC"], "alpha
gamma").
Proof. vm_compute. reflexivity. Qed.

(** C4 (amended). In the scenario, whatever the two files hold,
    [get_content_by_page_range(1, 2)] reads fileA and fileB and returns the
    text of fileA followed by the text of fileB: the file of page 3, where
    the walk stops, is included. [get_content_by_page_range(2, 3)] reads
    and returns the same two files, fileB being read because page 4 has no
    entry. *)
Theorem scenario_reads_both_files docA docB :
  get_content_by_page_range_reads (scenario_nav docA docB) 1 2
  = Ok (["fileA"; "fileB"], doc_text docA +:+ "
" +:+ doc_text docB)
  ∧ get_content_by_page_range_reads (scenario_nav docA docB) 2 3
    = Ok (["fileA"; "fileB"], doc_text docA +:+ "
" +:+ doc_text docB).
Proof. split; vm_compute; reflexivity. Qed.

(** C4 as stated fails: [get_content_by_page_range(1, 2)] does not read
    fileA only. *)
Lemma scenario_claim_fails :
  ¬ scenario_claim (scenario_nav (file_with ["a1"; "a2"] [] "alpha")
                      (file_with ["a3"] [] "beta")).
Proof.
  intros [[text H] _]. vm_compute in H. discriminate H.
Qed.

(** Nor does the choice of the spine matter: over that index, with
    readable files, no spine makes both halves of the scenario hold. *)
Lemma scenario_claim_needs_no_spine nav :
  page_map nav = scenario_index → readable nav → ¬ scenario_claim nav.
Proof.
  intros Hpm Hr [[t1 H1] [t2 H2]].
  unfold get_content_by_page_range_reads in H1, H2. rewrite Hpm in H1, H2.
  assert (scenario_index !! 1
          = Some {| file_id := "fileA"; full_path := "OEBPS/a.xhtml";
                    anchor_id := "a1" |}) as E1 by (vm_compute; reflexivity).
  assert (scenario_index !! 2
          = Some {| file_id := "fileA"; full_path := "OEBPS/a.xhtml";
                    anchor_id := "a2" |}) as E2 by (vm_compute; reflexivity).
  assert (scenario_index !! (2 + 1)
          = Some {| file_id := "fileB"; full_path := "OEBPS/b.xhtml";
                    anchor_id := "a3" |}) as E3 by (vm_compute; reflexivity).
  assert (scenario_index !! (3 + 1) = None) as E4
    by (vm_compute; reflexivity).
  rewrite E1, E3 in H1. rewrite E2, E4 in H2.
  cbn [fmap option_fmap option_map file_id] in H1, H2.
  rewrite collect_range_spec in H1, H2 by exact Hr.
  rewrite through_file_None in H2. cbn in H1, H2.
  injection H2 as Hfrom _. injection H1 as Hthrough _.
  rewrite Hfrom in Hthrough. cbn in Hthrough.
  rewrite decide_False in Hthrough by done.
  rewrite decide_True in Hthrough by done. discriminate Hthrough.
Qed.

(** ** Hierarchy resolution *)

Lemma walk_back_texts nav items c0 visited c :
  walk_back nav items c0 = Ok (visited, c) →
  section_text c = section_text c0
  ∧ subsection_text c = subsection_text c0
  ∧ subheading_text c = subheading_text c0
  ∧ topic_text c = topic_text c0.
Proof.
  revert c0 visited c.
  induction items as [|item rest IH]; intros c0 visited c; simpl.
  - by intros [= _ <-].
  - destruct (item_path nav item) as [path|]; [|done]. cbn.
    destruct (read_path nav path) as [soup|].
    + destruct (all_resolved _).
      * by intros [= _ <-].
      * destruct (walk_back nav rest _) as [[v c']|] eqn:E; [|done].
        cbn. intros [= _ <-]. by apply IH in E.
    + destruct (walk_back nav rest _) as [[v c']|] eqn:E; [|done].
      cbn. intros [= _ <-]. by apply IH in E.
Qed.

(** C10. Whatever the page number, indexed or not, a context returned by
    [get_hierarchy_context] has its four text fields unresolved: only the
    four heading fields are ever filled. *)
Theorem hierarchy_text_fields_unresolved nav page_number c :
  get_hierarchy_context nav page_number = Ok c →
  section_text c = None ∧ subsection_text c = None
  ∧ subheading_text c = None ∧ topic_text c = None.
Proof.
  unfold get_hierarchy_context, get_hierarchy_context_reads.
  destruct (page_map nav !! page_number) as [info|].
  - destruct (index_of _ _) as [i|]; [|done].
    destruct (walk_back _ _ _) as [[v c']|] eqn:E; [|done].
    intros [= <-]. by apply walk_back_texts in E.
  - by intros [= <-].
Qed.

Lemma hierarchy_text_fields_unresolved_witness :
  let c := {| section := Some "Medicine"; section_text := None;
              subsection := None; subsection_text := None;
              subheading := None; subheading_text := None;
              topic := None; topic_text := None |} in
  get_hierarchy_context
    (scenario_nav (file_with ["a1"; "a2"] ["Surgery"; "Medicine"] "alpha")
       (file_with ["a3"] [] "beta")) 2 = Ok c
  ∧ section_text c = None ∧ subsection_text c = None
  ∧ subheading_text c = None ∧ topic_text c = None.
Proof.
  split; [vm_compute; reflexivity|].
  apply (hierarchy_text_fields_unresolved
           (scenario_nav
              (file_with ["a1"; "a2"] ["Surgery"; "Medicine"] "alpha")
              (file_with ["a3"] [] "beta")) 2).
  vm_compute. reflexivity.
Defined.

Lemma or_else_None a : or_else a None = a.
Proof. by destruct a. Qed.

Lemma or_else_fill cur found rest :
  or_else (fill cur found) rest = or_else cur (or_else (last found) rest).
Proof. by destruct cur. Qed.

Lemma resolve_over_nil nav c : resolve_over nav [] c = c.
Proof. destruct c. unfold resolve_over. cbn. by rewrite !or_else_None. Qed.

Lemma resolve_over_unreadable nav item rest c :
  item_doc nav item = None →
  resolve_over nav (item :: rest) c = resolve_over nav rest c.
Proof.
  intros H. unfold resolve_over. cbn. unfold file_heading.
  by rewrite H.
Qed.

Lemma resolve_over_read nav item rest c soup :
  item_doc nav item = Some soup →
  resolve_over nav (item :: rest) c = resolve_over nav rest (fill_from soup c).
Proof.
  intros H. unfold resolve_over. cbn. unfold file_heading.
  rewrite H. cbn. by rewrite !or_else_fill.
Qed.

Lemma resolve_over_resolved nav items c :
  all_resolved c = true → resolve_over nav items c = c.
Proof.
  unfold all_resolved.
  intros [[[H1 H2]%andb_true_iff H3]%andb_true_iff H4]%andb_true_iff.
  apply bool_decide_eq_true in H1, H2, H3, H4.
  destruct c as [s ? ss ? sh ? t ?]. cbn in *. unfold resolve_over. cbn.
  by destruct s, ss, sh, t.
Qed.

Lemma walk_back_spec nav items c0 :
  (∀ i, i ∈ items → ∃ path, item_path nav i = Ok path) →
  all_resolved c0 = false →
  ∃ visited,
    walk_back nav items c0 = Ok (visited, resolve_over nav items c0)
    ∧ visited `prefix_of` items
    ∧ resolve_over nav items c0 = resolve_over nav visited c0
    ∧ (visited ≠ items → all_resolved (resolve_over nav items c0) = true)
    ∧ (∀ v, v `prefix_of` visited → v ≠ visited →
            all_resolved (resolve_over nav v c0) = false).
Proof.
  revert c0. induction items as [|item rest IH]; intros c0 Hp Hc0.
  - exists []. rewrite resolve_over_nil. repeat split; [done..|].
    intros v [k Hk] Hv. by destruct v.
  - destruct (Hp item) as [path Hpath]; [by left|].
    assert (∀ i, i ∈ rest → ∃ path, item_path nav i = Ok path) as Hp'
      by (intros; apply Hp; by right).
    cbn [walk_back]. rewrite Hpath. cbn.
    destruct (read_path nav path) as [soup|] eqn:Hread.
    + assert (item_doc nav item = Some soup) as Hdoc
        by (unfold item_doc; by rewrite Hpath).
      rewrite (resolve_over_read _ _ _ _ _ Hdoc).
      destruct (all_resolved (fill_from soup c0)) eqn:Hres.
      * exists [item]. rewrite resolve_over_resolved by done.
        split; [done|]. split; [by exists rest|].
        split; [by rewrite (resolve_over_read _ _ _ _ _ Hdoc),
                     resolve_over_nil|].
        split; [done|].
        intros [|x v] [k Hk] Hv.
        -- by rewrite resolve_over_nil.
        -- destruct v; [|done]. by simplify_eq/=.
      * destruct (IH _ Hp' Hres)
          as (visited & -> & Hpre & Hsame & Hstop & Hmin).
        exists (item :: visited). cbn. split; [done|].
        split; [by apply prefix_cons|].
        split; [by rewrite (resolve_over_read _ _ _ _ _ Hdoc)|].
        split; [intros Hne; apply Hstop; congruence|].
        intros [|x v] [k Hk] Hv; [by rewrite resolve_over_nil|].
        simplify_eq/=. rewrite (resolve_over_read _ _ _ _ _ Hdoc).
        apply Hmin; [by exists k|congruence].
    + assert (item_doc nav item = None) as Hdoc
        by (unfold item_doc; by rewrite Hpath).
      rewrite (resolve_over_unreadable _ _ _ _ Hdoc).
      destruct (IH _ Hp' Hc0)
        as (visited & -> & Hpre & Hsame & Hstop & Hmin).
      exists (item :: visited). cbn. split; [done|].
      split; [by apply prefix_cons|].
      split; [by rewrite (resolve_over_unreadable _ _ _ _ Hdoc)|].
      split; [intros Hne; apply Hstop; congruence|].
      intros [|x v] [k Hk] Hv; [by rewrite resolve_over_nil|].
      simplify_eq/=. rewrite (resolve_over_unreadable _ _ _ _ Hdoc).
      apply Hmin; [by exists k|congruence].
Qed.

Lemma index_of_split x l i :
  index_of x l = Some i →
  ∃ before after,
    l = before ++ x :: after ∧ length before = i ∧ x ∉ before.
Proof.
  revert i. induction l as [|y l IH]; intros i; simpl; [done|].
  destruct (String.eqb y x) eqn:E.
  - apply String.eqb_eq in E as ->. intros [= <-].
    exists [], l. repeat split. apply not_elem_of_nil.
  - apply String.eqb_neq in E.
    destruct (index_of x l) as [j|]; [|done]. intros [= <-].
    destruct (IH j eq_refl) as (b & a & -> & Hlen & Hnot).
    exists (y :: b), a. simpl. repeat split; [by rewrite Hlen|].
    intros [?|?]%elem_of_cons; by simplify_eq.
Qed.

Lemma index_of_elem x l : x ∈ l → is_Some (index_of x l).
Proof.
  induction l as [|y l IH]; [by intros ?%elem_of_nil|].
  simpl. destruct (String.eqb y x) eqn:E; [by eexists|].
  apply String.eqb_neq in E.
  intros [?|Hin]%elem_of_cons; [by simplify_eq|].
  destruct (IH Hin) as [j ->]. by eexists.
Qed.

Lemma walk_order_split nav start_file :
  start_file ∈ spine nav →
  ∃ before after,
    spine nav = before ++ start_file :: after
    ∧ (start_file ∉ before)
    ∧ walk_order nav start_file = start_file :: reverse before.
Proof.
  intros [i Hi]%index_of_elem. unfold walk_order. rewrite Hi.
  destruct (index_of_split _ _ _ Hi) as (b & a & Hsp & Hlen & Hnot).
  exists b, a. split; [done|]. split; [done|].
  rewrite Hsp. subst i.
  replace (S (length b)) with (length (b ++ [start_file]))
    by (rewrite length_app; simpl; lia).
  rewrite (cons_middle start_file b a), (assoc_L (++)), take_app_length.
  by rewrite reverse_snoc.
Qed.

(** C8 (amended). For an indexed page whose file is in the spine, when no
    spine item makes the path computation raise (every spine item has a
    manifest entry, or the OPF directory is empty), hierarchy resolution
    visits the
    spine backward from that page's file, that file included; each of the
    four levels takes the last heading of its tag in the nearest visited
    file that has one, and stays unresolved when no visited file has one;
    the walk stops at the first file after which all four levels are
    resolved, and otherwise goes on to the start of the spine. In
    particular, when the page's file holds the [h1] headings "Surgery"
    then "Medicine", the section is "Medicine". *)
Theorem hierarchy_walks_back_to_last_headings nav page_number start_info :
  page_map nav !! page_number = Some start_info →
  file_id start_info ∈ spine nav →
  paths_resolve nav →
  ∃ before after visited c,
    spine nav = before ++ file_id start_info :: after
    ∧ walk_order nav (file_id start_info)
      = file_id start_info :: reverse before
    ∧ get_hierarchy_context_reads nav page_number = Ok (visited, c)
    ∧ c = resolve_over nav (walk_order nav (file_id start_info))
            empty_context
    ∧ c = resolve_over nav visited empty_context
    ∧ visited `prefix_of` walk_order nav (file_id start_info)
    ∧ (visited ≠ walk_order nav (file_id start_info) →
       all_resolved c = true)
    ∧ (∀ v, v `prefix_of` visited → v ≠ visited →
            all_resolved (resolve_over nav v empty_context) = false)
    ∧ (∀ soup, item_doc nav (file_id start_info) = Some soup →
               doc_h1 soup = ["Surgery"; "Medicine"] →
               section c = Some "Medicine").
Proof.
  intros Hpage Hin Hpaths.
  destruct (walk_order_split nav _ Hin) as (before & after & Hsp & _ & Hw).
  assert (∀ i, i ∈ walk_order nav (file_id start_info) →
               ∃ path, item_path nav i = Ok path) as Hp.
  { intros i Hi. apply Hpaths. rewrite Hsp. rewrite Hw in Hi.
    apply elem_of_cons in Hi as [->|Hi%elem_of_reverse]; set_solver. }
  destruct (walk_back_spec nav _ empty_context Hp eq_refl)
    as (visited & Hwalk & Hpre & Hsame & Hstop & Hmin).
  exists before, after, visited,
    (resolve_over nav (walk_order nav (file_id start_info)) empty_context).
  split; [done|]. split; [done|].
  assert (get_hierarchy_context_reads nav page_number
          = walk_back nav (walk_order nav (file_id start_info))
              empty_context) as Hget.
  { unfold get_hierarchy_context_reads, walk_order. rewrite Hpage.
    destruct (index_of_elem _ _ Hin) as [i ->]. done. }
  split; [by rewrite Hget|]. split; [done|].
  split; [done|]. split; [done|]. split; [done|]. split; [done|].
  intros soup Hdoc Hh1. rewrite Hw. cbn. unfold file_heading.
  rewrite Hdoc. cbn. by rewrite Hh1.
Qed.

Lemma hierarchy_walks_back_to_last_headings_witness :
  let nav := scenario_nav
               (file_with ["a1"; "a2"] ["Surgery"; "Medicine"] "alpha")
               (file_with ["a3"] [] "beta") in
  ∃ visited c,
    get_hierarchy_context_reads nav 2 = Ok (visited, c)
    ∧ visited `prefix_of` ["fileA"]
    ∧ section c = Some "Medicine".
Proof.
  intros nav.
  destruct (hierarchy_walks_back_to_last_headings nav 2
              {| file_id := "fileA"; full_path := "OEBPS/a.xhtml";
                 anchor_id := "a2" |})
    as (before & after & visited & c & _ & _ & Hget & _ & _ & Hpre & _ & _
        & Hsection).
  - vm_compute. reflexivity.
  - cbn. left.
  - intros i Hi. cbn in Hi.
    apply elem_of_cons in Hi as [->|Hi]; [vm_compute; by eexists|].
    apply elem_of_cons in Hi as [->|Hi]; [vm_compute; by eexists|].
    by apply elem_of_nil in Hi.
  - exists visited, c. split; [exact Hget|]. split; [exact Hpre|].
    eapply Hsection; vm_compute; reflexivity.
Defined.

(** C8 as stated fails: for the indexed page 9 of the book read with the
    page map of an older edition, whose file is not in the spine,
    resolution returns no context: [spine.index] raises [ValueError]. *)
Lemma hierarchy_claim_fails : ¬ hierarchy_claim older_edition_nav.
Proof.
  intros H.
  destruct (H 9 {| file_id := "fileZ"; full_path := "OEBPS/z.xhtml";
                   anchor_id := "page_9" |})
    as (visited & c & Hget & _); [vm_compute; reflexivity|].
  vm_compute in Hget. discriminate Hget.
Qed.

(** Nor does a scanned page map save the claim as stated: with a spine
    item the manifest does not list and the OPF in a directory, the walk
    from the indexed page 1 reaches that item and [os.path.join] raises
    [TypeError]. *)
Lemma hierarchy_claim_fails_on_unlisted_item :
  get_hierarchy_context unlisted_cover_nav 1 = Raise TypeError
  ∧ ¬ hierarchy_claim unlisted_cover_nav.
Proof.
  split; [vm_compute; reflexivity|].
  intros H.
  destruct (H 1 {| file_id := "fileA"; full_path := "OEBPS/a.xhtml";
                   anchor_id := "page_1" |})
    as (visited & c & Hget & _); [vm_compute; reflexivity|].
  vm_compute in Hget. discriminate Hget.
Qed.

(** ** Chapter boundaries *)

Lemma group_pages_lookup (items : list (Z * page_info)) fid :
  group_pages items !! fid
  = match (filter (λ it, file_id it.2 = fid) items).*1 with
    | [] => None
    | pages => Some pages
    end.
Proof.
  unfold group_pages.
  induction items as [|[p info] items IH] using rev_ind; [done|].
  rewrite foldl_app, filter_app, fmap_app. cbn [foldl].
  unfold group_step at 1. cbn [fst snd].
  destruct (decide (file_id info = fid)) as [Heq|Hne].
  - rewrite filter_cons_True by exact Heq. rewrite Heq.
    rewrite lookup_insert_eq, IH. rewrite filter_nil. cbn.
    destruct ((filter _ items).*1); done.
  - rewrite lookup_insert_ne by done. rewrite IH.
    rewrite filter_cons_False by exact Hne. rewrite filter_nil. cbn.
    by rewrite app_nil_r.
Qed.

Lemma pages_of_elem nav fid p :
  p ∈ pages_of nav fid
  ↔ ∃ info, page_map nav !! p = Some info ∧ file_id info = fid.
Proof.
  unfold pages_of. rewrite list_elem_of_fmap. split.
  - intros ([q info] & -> & [Hf Hin%elem_of_map_to_list]%list_elem_of_filter).
    by exists info.
  - intros (info & Hp & Hf). exists (p, info). split; [done|].
    apply list_elem_of_filter. split; [done|]. by apply elem_of_map_to_list.
Qed.

Lemma sorted_last_max (l : list Z) d x :
  StronglySorted Z.le l → x ∈ l → x ≤ List.last l d.
Proof.
  intros Hs. revert d x. induction Hs as [|y l Hs IH Hall]; intros d x.
  - by intros ?%elem_of_nil.
  - intros [->|Hin]%elem_of_cons.
    + destruct l as [|y' l']; [simpl; lia|].
      change (List.last (y :: y' :: l') d) with (List.last (y' :: l') d).
      etrans; [|apply (IH d y'); by left].
      eapply Forall_forall in Hall; [done|by left].
    + destruct l as [|y' l']; [by apply elem_of_nil in Hin|].
      change (List.last (y :: y' :: l') d) with (List.last (y' :: l') d).
      by apply IH.
Qed.

Lemma last_elem (l : list Z) d : l ≠ [] → List.last l d ∈ l.
Proof.
  induction l as [|y l IH]; [done|]. intros _.
  destruct l as [|y' l']; [by left|].
  change (List.last (y :: y' :: l') d) with (List.last (y' :: l') d).
  right. by apply IH.
Qed.

Lemma sorted_pages_min_max (pages : list Z) :
  pages ≠ [] →
  ∃ first rest,
    merge_sort Z.le pages = first :: rest
    ∧ first ∈ pages
    ∧ List.last (first :: rest) first ∈ pages
    ∧ ∀ p, p ∈ pages → first ≤ p ≤ List.last (first :: rest) first.
Proof.
  intros Hne.
  pose proof (merge_sort_Permutation Z.le pages) as Hperm.
  pose proof (StronglySorted_merge_sort Z.le pages) as Hsorted.
  destruct (merge_sort Z.le pages) as [|first rest].
  { symmetry in Hperm. by apply Permutation_nil_r in Hperm. }
  exists first, rest. split; [done|].
  split; [rewrite <- Hperm; by left|].
  split; [rewrite <- Hperm; by apply last_elem|].
  intros p Hp. rewrite <- Hperm in Hp. split.
  - apply elem_of_cons in Hp as [->|Hp]; [lia|].
    apply StronglySorted_inv in Hsorted as [_ Hall].
    by eapply Forall_forall in Hall.
  - by apply sorted_last_max.
Qed.

Lemma boundaries_of_spec nav items :
  let bs := boundaries_of (group_pages (map_to_list (page_map nav))) items in
  b_file_id <$> bs = filter (λ item, pages_of nav item ≠ []) items
  ∧ ∀ b, b ∈ bs →
      start_page b ∈ pages_of nav (b_file_id b)
      ∧ end_page b ∈ pages_of nav (b_file_id b)
      ∧ ∀ p, p ∈ pages_of nav (b_file_id b) → in_range b p.
Proof.
  induction items as [|item items [IH1 IH2]]; cbn zeta.
  { split; [done|]. by intros b ?%elem_of_nil. }
  cbn [boundaries_of]. rewrite group_pages_lookup.
  fold (pages_of nav item).
  destruct (pages_of nav item) as [|p0 ps] eqn:Hpages.
  - rewrite filter_cons_False by (intros H; by apply H). done.
  - destruct (sorted_pages_min_max (p0 :: ps)) as
      (first & rest & -> & Hfirst & Hlast & Hmm); [done|].
    rewrite filter_cons_True by (by rewrite Hpages).
    split; [cbn; by rewrite IH1|].
    intros b [->|Hb]%elem_of_cons; [|by apply IH2].
    unfold in_range. cbn [b_file_id start_page end_page]. rewrite Hpages.
    split; [done|]. split; [done|]. intros p Hp. by apply Hmm.
Qed.

(** C7 (amended). [get_chapter_boundaries] gives one boundary per spine
    entry that owns at least one indexed page, in spine order, and none for
    the others; a boundary's start and end pages are the least and the
    greatest indexed page its file owns. Every indexed page whose file is
    in the spine lies in the range of its own file's boundary, and with a
    spine free of repeats that boundary is the only one of its file. *)
Theorem chapter_boundaries_by_owning_file nav :
  b_file_id <$> get_chapter_boundaries nav
  = filter (λ item, pages_of nav item ≠ []) (spine nav)
  ∧ (∀ b, b ∈ get_chapter_boundaries nav →
       start_page b ∈ pages_of nav (b_file_id b)
       ∧ end_page b ∈ pages_of nav (b_file_id b)
       ∧ ∀ p, p ∈ pages_of nav (b_file_id b) → in_range b p)
  ∧ (∀ p info, page_map nav !! p = Some info → file_id info ∈ spine nav →
       ∃ b, b ∈ get_chapter_boundaries nav
            ∧ b_file_id b = file_id info ∧ in_range b p)
  ∧ (NoDup (spine nav) → NoDup (b_file_id <$> get_chapter_boundaries nav)).
Proof.
  destruct (boundaries_of_spec nav (spine nav)) as [H1 H2].
  fold (get_chapter_boundaries nav) in H1, H2.
  split; [done|]. split; [done|]. split.
  - intros p info Hp Hin.
    assert (p ∈ pages_of nav (file_id info)) as Hown
      by (apply pages_of_elem; eauto).
    assert (file_id info ∈ b_file_id <$> get_chapter_boundaries nav) as Hb.
    { rewrite H1. apply list_elem_of_filter. split; [|done].
      intros Hnil. rewrite Hnil in Hown. by apply elem_of_nil in Hown. }
    apply list_elem_of_fmap in Hb as (b & Hfid & Hb).
    exists b. split; [done|]. split; [done|].
    apply H2; [done|]. by rewrite <- Hfid.
  - intros Hnd. rewrite H1. by apply NoDup_filter.
Qed.

Lemma chapter_boundaries_by_owning_file_witness :
  ∃ b, b ∈ get_chapter_boundaries interleaved_nav
       ∧ b_file_id b = "fileB" ∧ in_range b 2.
Proof.
  destruct (chapter_boundaries_by_owning_file interleaved_nav)
    as (_ & _ & Hown & _).
  apply (Hown 2 {| file_id := "fileB"; full_path := "b.xhtml";
                   anchor_id := "page_2" |}).
  - vm_compute. reflexivity.
  - cbn. right. left.
Defined.

(** C7 as stated fails: when the pages of two files interleave, a page
    lies in the ranges of two boundaries. *)
Lemma ranges_partition_fails : ¬ ranges_partition interleaved_nav.
Proof.
  intros H. destruct (H 2) as (b & _ & _ & Huniq).
  { vm_compute. by eexists. }
  assert (get_chapter_boundaries interleaved_nav
          = [ {| b_file_id := "fileA"; start_page := 1; end_page := 3 |};
              {| b_file_id := "fileB"; start_page := 2; end_page := 2 |} ])
    as Hbs by (vm_compute; reflexivity).
  rewrite Hbs in Huniq.
  assert ({| b_file_id := "fileA"; start_page := 1; end_page := 3 |} = b)
    as <- by (apply Huniq; [by left|unfold in_range; simpl; lia]).
  assert ({| b_file_id := "fileB"; start_page := 2; end_page := 2 |}
          = {| b_file_id := "fileA"; start_page := 1; end_page := 3 |})
    as Habs by (apply Huniq; [right; by left|unfold in_range; simpl; lia]).
  discriminate Habs.
Qed.

(** ** The chunk loop *)

Lemma parse_chunk_lines_first text :
  parse_lines (Py.split_lines (Py.strip text)) ≠ [] →
  parse_chunk text = parse_lines (Py.split_lines (Py.strip text)).
Proof. unfold parse_chunk. by destruct (parse_lines _). Qed.

Lemma parse_chunk_fallback text :
  parse_lines (Py.split_lines (Py.strip text)) = [] →
  parse_chunk text = parse_whole text.
Proof. unfold parse_chunk. by intros ->. Qed.

Lemma parse_whole_list text l :
  Json.loads text = Some (JList l) → parse_whole text = l.
Proof. unfold parse_whole. by intros ->. Qed.

Lemma parse_whole_dict text members :
  Json.loads text = Some (JDict members) →
  parse_whole text = [JDict members].
Proof. unfold parse_whole. by intros ->. Qed.

(** A line that does not parse is passed over. *)
Lemma parse_lines_skip line rest :
  Json.loads (Py.strip line) = None →
  parse_lines (line :: rest) = parse_lines rest.
Proof. simpl. intros ->. by destruct (String.eqb _ _). Qed.

Example truncated_response_two_records :
  parse_chunk truncated_response = [record "10021"; record "10030"].
Proof. vm_compute. reflexivity. Qed.

Example array_indented_three_records :
  parse_chunk array_indented_response
  = [record "10021"; record "10030"; record "10035"].
Proof. vm_compute. reflexivity. Qed.

Example object_indented_one_record :
  parse_chunk object_indented_response = [record "10021"].
Proof. vm_compute. reflexivity. Qed.

(** A chunk with no record: the raw text goes to the debug file named by
    the page range, nothing is raised, and the carried variables are those
    from before the chunk. *)
Lemma failed_chunk_keeps_state output_dir st chunk text :
  parse_chunk text = [] →
  process_chunk output_dir st chunk text
  = Ok {| all_codes := all_codes st;
          last_code_context := last_code_context st;
          written := written st ++
            [(chunk_filename output_dir chunk.1 chunk.2 "_raw_error.txt",
              RawText text)] |}.
Proof. unfold process_chunk. by intros ->. Qed.

(** And the loop goes on with the next chunk. *)
Lemma failed_chunk_run_continues nav h gen output_dir chunk rest st text :
  extract_pages nav h gen chunk.1 chunk.2 (last_code_context st) = Ok text →
  parse_chunk text = [] →
  run_chunks nav h gen output_dir (chunk :: rest) st
  = run_chunks nav h gen output_dir rest
      {| all_codes := all_codes st;
         last_code_context := last_code_context st;
         written := written st ++
           [(chunk_filename output_dir chunk.1 chunk.2 "_raw_error.txt",
             RawText text)] |}.
Proof.
  intros He Hp. cbn [run_chunks]. rewrite He. cbn.
  by rewrite (failed_chunk_keeps_state _ _ _ _ Hp).
Qed.

Example unparsable_chunk_then_next :
  run_chunks (scenario_nav (file_with [] [] "alpha") (file_with [] [] "beta"))
    false
    (λ current_start _ _ _ _,
       if decide (current_start = 1) then Some "no codes on these pages"
       else Some (dq "{'code': '10021'}"))
    "out" [(1, 2); (3, 3)] initial_state
  = Ok {| all_codes := [record "10021"];
          last_code_context := Some (record "10021");
          written :=
            [("out/cpt_1_2_raw_error.txt", RawText "no codes on these pages");
             ("out/cpt_3_3_chapter.jsonl", JsonLines [record "10021"])] |}.
Proof. vm_compute. reflexivity. Qed.

(** C1, the code at the failing input. When the generation call raises,
    [extract_pages] returns the text of an empty array; the line-by-line
    pass reads that line as one record, the empty list, so the chunk does
    not take the no-record path: [last_code_context.get] raises
    [AttributeError], which the loop does not catch, and the run ends
    there whatever chunks remain. *)
Theorem generation_failure_aborts_run :
  response_text None = "[]"
  ∧ parse_chunk (response_text None) = [JList []]
  ∧ (∀ output_dir st chunk,
       process_chunk output_dir st chunk (response_text None)
       = Raise AttributeError)
  ∧ (∀ nav use_hierarchy output_dir chunk rest st,
       ∃ e, run_chunks nav use_hierarchy failing_generation output_dir
              (chunk :: rest) st = Raise e)
  ∧ run_chunks
      (scenario_nav (file_with [] [] "alpha") (file_with [] [] "beta"))
      false failing_generation "out" [(1, 2); (3, 3)] initial_state
    = Raise AttributeError.
Proof.
  assert (parse_chunk (response_text None) = [JList []]) as Hparse
    by (vm_compute; reflexivity).
  assert (∀ output_dir st chunk,
            process_chunk output_dir st chunk (response_text None)
            = Raise AttributeError) as Hproc.
  { intros. unfold process_chunk. by rewrite Hparse. }
  split; [done|]. split; [done|]. split; [done|]. split.
  - intros nav h output_dir chunk rest st. cbn [run_chunks].
    unfold extract_pages, failing_generation.
    destruct (get_content_by_page_range nav chunk.1 chunk.2) as [raw|e];
      [|by exists e].
    cbn. destruct h.
    + destruct (get_hierarchy_context nav chunk.1) as [c|e];
        [|by exists e].
      cbn. rewrite Hproc. by eexists.
    + cbn. rewrite Hproc. by eexists.
  - vm_compute. reflexivity.
Qed.

(** C5, the code at the failing input. A response that is one top-level
    array of three objects on a single line is read by the line-by-line
    pass as one record, the array itself: the fallback, which would give
    the three objects, is not reached, and [last_code_context.get] then
    raises. With one object per line, only the last object, the one line
    with no trailing comma, is kept. *)
Theorem single_line_array_is_one_record :
  parse_chunk array_response
  = [JList [record "10021"; record "10030"; record "10035"]]
  ∧ parse_whole array_response
    = [record "10021"; record "10030"; record "10035"]
  ∧ (∀ output_dir st chunk,
       process_chunk output_dir st chunk array_response
       = Raise AttributeError)
  ∧ parse_chunk array_by_line_response = [record "10035"].
Proof.
  assert (parse_chunk array_response
          = [JList [record "10021"; record "10030"; record "10035"]])
    as Hparse by (vm_compute; reflexivity).
  split; [done|]. split; [vm_compute; reflexivity|]. split.
  - intros. unfold process_chunk. by rewrite Hparse.
  - vm_compute. reflexivity.
Qed.

(** * Further properties of the navigator and the driver *)

(** ** What a scanned page map holds *)

Lemma marker_number_shape sid :
  Py.is_page_marker sid = true →
  ∃ c ds, Py.int_strip (Py.remove_page_ 0 sid) = String c ds
          ∧ Py.is_digit c = true
          ∧ Py.all_chars Py.is_digit ds = true.
Proof.
  unfold Py.is_page_marker. intros [Hp Ht]%andb_true_iff.
  apply startswith_drop in Hp. simpl String.length in Hp.
  set (r := Py.drop 5 sid) in *. rewrite Hp. clearbody r. clear Hp.
  change (Py.remove_page_ 0 ("page_" +:+ r)) with (Py.remove_page_ 0 r).
  rewrite remove_page__id by by eapply marker_tail_no_p.
  destruct r as [|c r]; [done|]. simpl in Ht.
  destruct (Py.is_digit c) eqn:Hd; [|done].
  destruct (marker_tail_rskip r Ht) as (ds & Hds & Hall).
  exists c, ds. split; [|done].
  unfold Py.int_strip. simpl Py.lskip. rewrite (digit_not_c_space c Hd).
  simpl. rewrite Hds, (digit_not_c_space c Hd). by destruct ds.
Qed.

Lemma marker_number_nonneg sid n :
  Py.is_page_marker sid = true →
  Py.int_of_str (Py.remove_page_ 0 sid) = Some n → 0 ≤ n.
Proof.
  intros (c & ds & Hstrip & Hc & Hds)%marker_number_shape.
  unfold Py.int_of_str. rewrite Hstrip.
  assert ((match String c ds with
           | String "-" r => (true, r)
           | String "+" r => (false, r)
           | _ => (false, String c ds)
           end) = (false, String c ds)) as ->.
  { destruct c as [[] [] [] [] [] [] [] []]; done. }
  destruct (Py.int_digits false (String c ds)) as [digits|]; [|done].
  cbn. destruct (NilEmpty.uint_of_string digits) as [u|]; [|done].
  cbn. intros [= <-]. unfold Z.of_uint. apply N2Z.is_nonneg.
Qed.

Lemma book_marker_origin zip dir mani sp (m : Z * page_info) :
  m ∈ book_markers zip dir mani sp →
  file_id m.2 ∈ sp
  ∧ (∃ href doc,
       mani !! file_id m.2 = Some href ∧ href ≠ ""
       ∧ full_path m.2 = (if String.eqb dir "" then href
                          else Py.path_join dir href)
       ∧ zip !! full_path m.2 = Some doc
       ∧ anchor_id m.2 ∈ doc_span_ids doc)
  ∧ Py.is_page_marker (anchor_id m.2) = true
  ∧ Py.int_of_str (Py.remove_page_ 0 (anchor_id m.2)) = Some m.1.
Proof.
  unfold book_markers. intros (item & Hm & Hitem)%list_elem_of_bind.
  unfold file_markers in Hm.
  destruct (mani !! item) as [href|] eqn:Hman; [|by apply elem_of_nil in Hm].
  destruct (String.eqb href "") eqn:Hhref; [by apply elem_of_nil in Hm|].
  apply String.eqb_neq in Hhref.
  destruct (zip !! _) as [doc|] eqn:Hzip; [|by apply elem_of_nil in Hm].
  apply list_elem_of_omap in Hm as (sid & Hsid & Hmark).
  apply list_elem_of_filter in Hsid as [Hpm Hsid].
  unfold marker_of in Hmark.
  destruct (Py.int_of_str _) as [n|] eqn:Hn; [|done].
  cbn in Hmark. injection Hmark as <-. cbn.
  split; [done|]. split; [|done].
  exists href, doc. by rewrite Hman.
Qed.

Lemma scanned_entry_comes_from_archive_aux zip dir mani sp p info :
  scan_book zip dir mani sp !! p = Some info →
  file_id info ∈ sp
  ∧ ∃ href doc,
      mani !! file_id info = Some href ∧ href ≠ ""
      ∧ full_path info = (if String.eqb dir "" then href
                          else Py.path_join dir href)
      ∧ zip !! full_path info = Some doc.
Proof.
  unfold scan_book. rewrite scan_spine_store, foldl_store_lookup.
  destruct (last _) as [m|] eqn:Hlast; [|by rewrite lookup_empty].
  intros [= <-].
  apply last_Some_elem_of in Hlast.
  apply list_elem_of_filter in Hlast as [Hp Hm].
  destruct (book_marker_origin _ _ _ _ _ Hm)
    as (H1 & (href & doc & ? & ? & ? & ? & ?) & _).
  split; [done|]. by exists href, doc.
Qed.

(** X1. Every entry of a scanned page map comes from the archive: its file
    is a spine item with a non-empty manifest entry, its path is that entry
    joined to the OPF directory and names a readable file, its anchor is a
    span [id] of that file that matches the page-marker pattern, and the
    page number is the number written in the anchor, which is never
    negative. *)
Theorem scanned_entry_comes_from_archive zip dir mani sp p info :
  scan_book zip dir mani sp !! p = Some info →
  file_id info ∈ sp
  ∧ (∃ href doc,
       mani !! file_id info = Some href ∧ href ≠ ""
       ∧ full_path info = (if String.eqb dir "" then href
                           else Py.path_join dir href)
       ∧ zip !! full_path info = Some doc
       ∧ anchor_id info ∈ doc_span_ids doc)
  ∧ Py.is_page_marker (anchor_id info) = true
  ∧ Py.int_of_str (Py.remove_page_ 0 (anchor_id info)) = Some p
  ∧ 0 ≤ p.
Proof.
  unfold scan_book. rewrite scan_spine_store, foldl_store_lookup.
  destruct (last _) as [m|] eqn:Hlast; [|by rewrite lookup_empty].
  intros [= <-].
  apply last_Some_elem_of in Hlast.
  apply list_elem_of_filter in Hlast as [Hp Hm].
  destruct (book_marker_origin _ _ _ _ _ Hm) as (H1 & H2 & H3 & H4).
  rewrite Hp in H4. repeat split; try done.
  by eapply marker_number_nonneg.
Qed.

Lemma scanned_entry_comes_from_archive_witness :
  file_id {| file_id := "ch1"; full_path := "OEBPS/ch1.xhtml";
             anchor_id := "page_2" |} ∈ dup_spine ∧ 0 ≤ 2.
Proof.
  destruct (scanned_entry_comes_from_archive dup_zip "OEBPS" dup_manifest
              dup_spine 2
              {| file_id := "ch1"; full_path := "OEBPS/ch1.xhtml";
                 anchor_id := "page_2" |}) as (H1 & _ & _ & _ & H5).
  - vm_compute. reflexivity.
  - split; [exact H1|exact H5].
Defined.

(** X2. A spine item that has no manifest entry, an empty one, or a file
    that cannot be read adds nothing to the page map and does not stop the
    scan: the map is the one of the spine without that item. *)
Theorem unreadable_item_is_skipped zip dir mani before item after :
  (mani !! item = None
   ∨ mani !! item = Some ""
   ∨ ∃ href, mani !! item = Some href
             ∧ zip !! (if String.eqb dir "" then href
                       else Py.path_join dir href) = None) →
  scan_book zip dir mani (before ++ item :: after)
  = scan_book zip dir mani (before ++ after).
Proof.
  intros H. unfold scan_book. rewrite !scan_spine_store. f_equal.
  unfold book_markers. rewrite !bind_app, bind_cons.
  assert (file_markers zip dir mani item = []) as ->; [|done].
  unfold file_markers.
  destruct H as [->|[->|(href & -> & Hz)]]; [done|done|].
  destruct (String.eqb href ""); [done|]. by rewrite Hz.
Qed.

Lemma unreadable_item_is_skipped_witness :
  scan_book dup_zip "OEBPS" dup_manifest (["front"] ++ "cover" :: ["ch1"])
  = scan_book dup_zip "OEBPS" dup_manifest (["front"] ++ ["ch1"]).
Proof.
  apply (unreadable_item_is_skipped dup_zip "OEBPS" dup_manifest
           ["front"] "cover" ["ch1"]).
  left. vm_compute. reflexivity.
Defined.

(** ** The cache that cannot be loaded *)

Lemma coerce_keys_bad_key items acc k v :
  (k, v) ∈ items → Py.int_of_str k = None → coerce_keys items acc = None.
Proof.
  revert acc. induction items as [|[k' v'] items IH]; intros acc Hin Hk.
  - by apply elem_of_nil in Hin.
  - simpl. apply elem_of_cons in Hin as [[= <- <-]|Hin].
    + by rewrite Hk.
    + destruct (Py.int_of_str k'); [|done]. cbn. by apply IH.
Qed.

(** X3. A cache file that [json.load] rejects, or one with a key that
    [int()] rejects, is not used: the page map is the one of a fresh scan,
    and the file is overwritten with that map when it can be written, left
    as it is otherwise. *)
Theorem unloadable_cache_is_rebuilt zip dir sp mani cache :
  (cache = CacheInvalid
   ∨ ∃ items k v, cache = CacheObject items ∧ (k, v) ∈ items
                  ∧ Py.int_of_str k = None) →
  _build_page_map zip dir sp mani (Some cache) true
  = (scan_book zip dir mani sp,
     Some (dump_page_map (scan_book zip dir mani sp)))
  ∧ _build_page_map zip dir sp mani (Some cache) false
    = (scan_book zip dir mani sp, Some cache).
Proof.
  intros [->|(items & k & v & -> & Hin & Hk)]; [done|].
  unfold _build_page_map.
  by rewrite (coerce_keys_bad_key _ _ _ _ Hin Hk).
Qed.

Lemma unloadable_cache_is_rebuilt_witness :
  _build_page_map dup_zip "OEBPS" dup_spine dup_manifest
    (Some (CacheObject
             [("1", {| file_id := "old"; full_path := "old.xhtml";
                       anchor_id := "page_1" |});
              ("one", {| file_id := "old"; full_path := "old.xhtml";
                         anchor_id := "page_1" |})])) true
  = (scan_book dup_zip "OEBPS" dup_manifest dup_spine,
     Some (dump_page_map (scan_book dup_zip "OEBPS" dup_manifest dup_spine))).
Proof.
  refine (proj1 (unloadable_cache_is_rebuilt dup_zip "OEBPS" dup_spine
                   dup_manifest _ _)).
  right. eexists _, "one", _. split; [reflexivity|].
  split; [right; left|]. vm_compute. reflexivity.
Defined.

Example cache_key_examples :
  Py.int_of_str " 7
" = Some 7 ∧ Py.int_of_str "+07" = Some 7 ∧ Py.int_of_str "-7" = Some (-7)
  ∧ Py.int_of_str (String "028" "7") = None
  ∧ Py.int_of_str (String "7" (String "031" "")) = None
  ∧ Py.int_of_str "7.0" = None ∧ Py.int_of_str "" = None
  ∧ Py.strip (String "028" "7") = "7".
Proof. vm_compute. repeat split. Qed.

(** ** Range extraction at its edges *)

Lemma collect_range_total nav start_file end_file collecting items :
  (∀ i, i ∈ items → ∃ path, item_path nav i = Ok path) →
  ∃ r, collect_range nav start_file end_file collecting items = Ok r.
Proof.
  revert collecting. induction items as [|item rest IH]; intros c Hp.
  - by eexists.
  - destruct (Hp item) as [path Hpath]; [by left|].
    assert (∀ i, i ∈ rest → ∃ path, item_path nav i = Ok path) as Hp'
      by (intros; apply Hp; by right).
    cbn [collect_range]. rewrite Hpath. cbn.
    destruct (negb c && negb (String.eqb item start_file)); [by apply IH|].
    destruct (read_path nav path) as [soup|].
    + case_bool_decide; [by eexists|].
      destruct (IH (if String.eqb item start_file then true else c) Hp')
        as [[reads content] ->].
      by eexists.
    + destruct (IH c Hp') as [[reads content] ->]. by eexists.
Qed.

Lemma collect_range_first nav start_file end_file items soup :
  (∀ i, i ∈ items → ∃ path, item_path nav i = Ok path) →
  start_file ∈ items →
  item_doc nav start_file = Some soup →
  ∃ reads rest,
    collect_range nav start_file end_file false items
    = Ok (start_file :: reads, doc_text soup :: rest).
Proof.
  induction items as [|item items IH]; intros Hp Hin Hdoc.
  - by apply elem_of_nil in Hin.
  - destruct (Hp item) as [path Hpath]; [by left|].
    assert (∀ i, i ∈ items → ∃ path, item_path nav i = Ok path) as Hp'
      by (intros; apply Hp; by right).
    cbn [collect_range]. rewrite Hpath. cbn.
    destruct (String.eqb item start_file) eqn:E.
    + apply String.eqb_eq in E as ->. cbn.
      unfold item_doc in Hdoc. rewrite Hpath in Hdoc. rewrite Hdoc.
      case_bool_decide; [by eexists _, _|].
      destruct (collect_range_total nav start_file end_file true items Hp')
        as [[reads content] ->].
      by eexists _, _.
    + apply String.eqb_neq in E. cbn. apply IH; [done| |done].
      apply elem_of_cons in Hin as [?|?]; [congruence|done].
Qed.

Lemma join_cons sep x rest : ∃ tail, Py.join sep (x :: rest) = x +:+ tail.
Proof.
  destruct rest as [|y rest].
  - exists "". simpl. induction x as [|c x IH]; [done|].
    unfold String.app in *. simpl. by rewrite <- IH.
  - by eexists.
Qed.

(** X4. With a page map obtained by scanning the archive, a call for an
    indexed start page always reads that page's file first and returns a
    text that begins with the whole text of that file, whatever the end
    page (provided no spine item makes the path computation raise). *)
Theorem scanned_start_page_text_comes_first zip dir sp mani writable
    start_page end_page info :
  let nav := (open_navigator zip dir sp mani None writable).1 in
  page_map nav !! start_page = Some info →
  paths_resolve nav →
  ∃ soup reads tail,
    zip !! full_path info = Some soup
    ∧ get_content_by_page_range_reads nav start_page end_page
      = Ok (file_id info :: reads, doc_text soup +:+ tail).
Proof.
  cbn. intros Hpage Hpaths.
  destruct (scanned_entry_comes_from_archive_aux zip dir mani sp _ _ Hpage)
    as (Hin & href & soup & Hman & Hne & Hfull & Hzip).
  set (nav := {| z := zip; opf_dir := dir; spine := sp; manifest := mani;
                 page_map := scan_book zip dir mani sp |}).
  assert (item_doc nav (file_id info) = Some soup) as Hdoc.
  { unfold item_doc, item_path. cbn. rewrite Hman.
    rewrite Hfull in Hzip. by destruct (String.eqb dir ""). }
  destruct (collect_range_first nav (file_id info)
              (file_id <$> page_map nav !! (end_page + 1)) sp soup
              Hpaths Hin Hdoc) as (reads & rest & Hcollect).
  destruct (join_cons "
" (doc_text soup) rest) as [tail Htail].
  exists soup, reads, tail. split; [done|].
  unfold get_content_by_page_range_reads.
  change (page_map nav) with (scan_book zip dir mani sp). rewrite Hpage.
  change (spine nav) with sp.
  change (scan_book zip dir mani sp) with (page_map nav).
  rewrite Hcollect. cbn -[Py.join]. by rewrite Htail.
Qed.

Lemma scanned_start_page_text_comes_first_witness :
  ∃ soup reads tail,
    dup_zip !! "OEBPS/ch1.xhtml" = Some soup
    ∧ get_content_by_page_range_reads dup_nav 2 2
      = Ok ("ch1" :: reads, doc_text soup +:+ tail).
Proof.
  apply (scanned_start_page_text_comes_first dup_zip "OEBPS" dup_spine
           dup_manifest true 2 2
           {| file_id := "ch1"; full_path := "OEBPS/ch1.xhtml";
              anchor_id := "page_2" |}).
  - vm_compute. reflexivity.
  - intros i Hi. cbn in Hi.
    apply elem_of_cons in Hi as [->|Hi]; [vm_compute; by eexists|].
    apply elem_of_cons in Hi as [->|Hi]; [vm_compute; by eexists|].
    by apply elem_of_nil in Hi.
Defined.

Lemma collect_range_unlisted nav start_file end_file before item after :
  manifest nav !! item = None →
  opf_dir nav ≠ "" →
  start_file ∉ before →
  collect_range nav start_file end_file false (before ++ item :: after)
  = Raise TypeError.
Proof.
  intros Hman Hdir.
  assert (item_path nav item = Raise TypeError) as Hitem.
  { unfold item_path. rewrite Hman.
    apply String.eqb_neq in Hdir. by rewrite Hdir. }
  induction before as [|x before IH]; intros Hnot.
  - cbn [app collect_range]. by rewrite Hitem.
  - apply not_elem_of_cons in Hnot as [Hx Hnot].
    cbn [app collect_range].
    destruct (item_path nav x) as [path|e] eqn:Hpath.
    + cbn. apply not_eq_sym, String.eqb_neq in Hx. rewrite Hx. cbn.
      by apply IH.
    + unfold item_path in Hpath.
      destruct (String.eqb (opf_dir nav) ""); [done|].
      destruct (manifest nav !! x); [done|]. by injection Hpath as <-.
Qed.

(** X5. Range extraction does not skip a spine item the manifest does not
    list, as the scan does: with a non-empty OPF directory, when such an
    item stands in the spine with no occurrence of the start page's file
    before it, the call raises [TypeError] and returns no text. *)
Theorem unlisted_item_makes_range_raise nav start_page end_page info
    before item after :
  page_map nav !! start_page = Some info →
  spine nav = before ++ item :: after →
  file_id info ∉ before →
  manifest nav !! item = None →
  opf_dir nav ≠ "" →
  get_content_by_page_range nav start_page end_page = Raise TypeError.
Proof.
  intros Hpage Hspine Hnot Hman Hdir.
  unfold get_content_by_page_range, get_content_by_page_range_reads.
  rewrite Hpage, Hspine.
  by rewrite collect_range_unlisted.
Qed.

Lemma unlisted_item_makes_range_raise_witness :
  get_content_by_page_range unlisted_item_nav 1 2 = Raise TypeError
  ∧ scan_book (z unlisted_item_nav) "OEBPS" (manifest unlisted_item_nav)
      (spine unlisted_item_nav)
    = scan_book (z unlisted_item_nav) "OEBPS" (manifest unlisted_item_nav)
        ["fileA"; "fileB"].
Proof.
  split; [|vm_compute; reflexivity].
  apply (unlisted_item_makes_range_raise unlisted_item_nav 1 2
           {| file_id := "fileA"; full_path := "OEBPS/a.xhtml";
              anchor_id := "a1" |} [] "cover" ["fileA"; "fileB"]).
  - vm_compute. reflexivity.
  - reflexivity.
  - apply not_elem_of_nil.
  - vm_compute. reflexivity.
  - done.
Defined.

Lemma index_of_None x l : x ∉ l → index_of x l = None.
Proof.
  induction l as [|y l IH]; [done|].
  intros [Hne Hnot]%not_elem_of_cons. simpl.
  apply not_eq_sym, String.eqb_neq in Hne. rewrite Hne.
  by rewrite IH.
Qed.

Lemma collect_range_absent nav start_file end_file items :
  (∀ i, i ∈ items → ∃ path, item_path nav i = Ok path) →
  start_file ∉ items →
  collect_range nav start_file end_file false items = Ok ([], []).
Proof.
  induction items as [|item items IH]; intros Hp Hnot; [done|].
  apply not_elem_of_cons in Hnot as [Hne Hnot].
  destruct (Hp item) as [path Hpath]; [by left|].
  cbn [collect_range]. rewrite Hpath. cbn.
  apply not_eq_sym, String.eqb_neq in Hne. rewrite Hne. cbn.
  apply IH; [|done]. intros; apply Hp; by right.
Qed.

(** X6. A page-map entry whose file is not in the spine (a cache kept from
    another edition of the book) is handled differently by the two
    queries: [get_hierarchy_context] raises [ValueError], while
    [get_content_by_page_range] reads no file and returns the empty
    string (no spine item making the path computation raise). *)
Theorem entry_outside_spine nav page_number end_page info :
  page_map nav !! page_number = Some info →
  file_id info ∉ spine nav →
  get_hierarchy_context nav page_number = Raise ValueError
  ∧ (paths_resolve nav →
     get_content_by_page_range_reads nav page_number end_page
     = Ok ([], "")).
Proof.
  intros Hpage Hnot. split.
  - unfold get_hierarchy_context, get_hierarchy_context_reads.
    by rewrite Hpage, index_of_None.
  - intros Hp. unfold get_content_by_page_range_reads. rewrite Hpage.
    by rewrite collect_range_absent.
Qed.

Lemma entry_outside_spine_witness :
  get_hierarchy_context stale_nav 9 = Raise ValueError
  ∧ get_content_by_page_range_reads stale_nav 9 9 = Ok ([], "").
Proof.
  destruct (entry_outside_spine stale_nav 9 9
              {| file_id := "fileZ"; full_path := "OEBPS/z.xhtml";
                 anchor_id := "page_9" |}) as [H1 H2].
  - vm_compute. reflexivity.
  - cbn. intros Hin.
    apply elem_of_cons in Hin as [?|Hin]; [done|].
    apply elem_of_cons in Hin as [?|Hin]; [done|].
    by apply elem_of_nil in Hin.
  - split; [exact H1|]. apply H2.
    intros i Hi. cbn in Hi.
    apply elem_of_cons in Hi as [->|Hi]; [vm_compute; by eexists|].
    apply elem_of_cons in Hi as [->|Hi]; [vm_compute; by eexists|].
    by apply elem_of_nil in Hi.
Defined.

(** ** Fixed-size chunks *)

Example plan_fixed_ex :
  plan_fixed 64 75 5 = Ok [(64, 68); (69, 73); (74, 75)]
  ∧ plan_fixed 3 3 5 = Ok [(3, 3)]
  ∧ plan_fixed 5 4 5 = Ok []
  ∧ plan_fixed 1 10 (-3) = Ok []
  ∧ plan_fixed 10 1 (-4) = Ok [(10, 1); (6, 1)].
Proof. vm_compute. repeat split. Qed.

Lemma plan_fixed_lookup start end_ chunk_size :
  0 < chunk_size → start ≤ end_ →
  ∃ chunks,
    plan_fixed start end_ chunk_size = Ok chunks
    ∧ Z.of_nat (length chunks) = 1 + (end_ - start) / chunk_size
    ∧ ∀ i c, chunks !! i = Some c ↔
        (Z.of_nat i ≤ (end_ - start) / chunk_size
         ∧ c = (start + Z.of_nat i * chunk_size,
                Z.min (start + Z.of_nat i * chunk_size + chunk_size - 1)
                      end_)).
Proof.
  intros Hk Hse. unfold plan_fixed, py_range.
  rewrite decide_False by lia. rewrite decide_True by lia.
  replace (end_ + 1 - 1 - start) with (end_ - start) by lia.
  pose proof (Z.div_pos (end_ - start) chunk_size ltac:(lia) Hk) as Hq.
  eexists. split; [reflexivity|]. split.
  - rewrite !length_fmap, length_seq. lia.
  - intros i c. rewrite !list_lookup_fmap. split.
    + destruct (seq _ _ !! i) as [j|] eqn:Hj; [|done].
      apply lookup_seq in Hj as [-> Hlt]. cbn. intros [= <-].
      split; [lia|done].
    + intros [Hi ->].
      rewrite (lookup_seq_lt 0 _ i) by lia. done.
Qed.

(** X7. With a positive chunk size and [start <= end], the fixed-size
    chunks cover the requested pages exactly: a page lies in some chunk if
    and only if it lies between [start] and [end], and then in one chunk
    only. *)
Theorem fixed_chunks_partition_request start end_ chunk_size :
  0 < chunk_size → start ≤ end_ →
  ∃ chunks,
    plan_fixed start end_ chunk_size = Ok chunks
    ∧ (∀ p, (∃ c, c ∈ chunks ∧ in_chunk p c) ↔ start ≤ p ≤ end_)
    ∧ (∀ p c c', c ∈ chunks → c' ∈ chunks →
                 in_chunk p c → in_chunk p c' → c = c').
Proof.
  intros Hk Hse.
  destruct (plan_fixed_lookup start end_ chunk_size Hk Hse)
    as (chunks & Hplan & Hlen & Hlook).
  exists chunks. split; [done|].
  assert (∀ p c, c ∈ chunks → in_chunk p c →
            start ≤ p ≤ end_
            ∧ c = (start + (p - start) / chunk_size * chunk_size,
                   Z.min (start + (p - start) / chunk_size * chunk_size
                          + chunk_size - 1) end_)) as Hown.
  { intros p c [i Hi]%list_elem_of_lookup Hin.
    apply Hlook in Hi as [Hi ->]. unfold in_chunk in Hin. cbn in Hin.
    assert ((p - start) / chunk_size = Z.of_nat i) as ->.
    { symmetry. apply (Z.div_unique_pos _ _ _ (p - start - Z.of_nat i * chunk_size)); lia. }
    split; [lia|done]. }
  split.
  - intros p. split.
    + intros (c & Hc & Hin). by apply (Hown p c).
    + intros Hp.
      pose proof (Z.div_pos (p - start) chunk_size ltac:(lia) Hk) as Hq.
      pose proof (Z.div_le_mono (p - start) (end_ - start) chunk_size
                    Hk ltac:(lia)) as Hle.
      pose proof (Z.mul_div_le (p - start) chunk_size Hk) as Hlo.
      pose proof (Z.mul_succ_div_gt (p - start) chunk_size Hk) as Hhi.
      eexists. split.
      * apply list_elem_of_lookup.
        exists (Z.to_nat ((p - start) / chunk_size)).
        apply Hlook. split; [lia|reflexivity].
      * unfold in_chunk. cbn. lia.
  - intros p c c' Hc Hc' Hin Hin'.
    destruct (Hown p c Hc Hin) as [_ ->].
    by destruct (Hown p c' Hc' Hin') as [_ ->].
Qed.

Lemma fixed_chunks_partition_request_witness :
  ∃ chunks,
    plan_fixed 64 75 5 = Ok chunks
    ∧ (∀ p, (∃ c, c ∈ chunks ∧ in_chunk p c) ↔ 64 ≤ p ≤ 75)
    ∧ (∀ p c c', c ∈ chunks → c' ∈ chunks →
                 in_chunk p c → in_chunk p c' → c = c').
Proof. apply (fixed_chunks_partition_request 64 75 5); lia. Defined.

(** X8. With a positive chunk size and [start <= end], the first chunk
    begins at [start], the last one ends at [end], each chunk begins on the
    page after the previous one and that previous one has exactly
    [chunk_size] pages; no chunk is empty or longer than [chunk_size]. *)
Theorem fixed_chunks_are_consecutive start end_ chunk_size :
  0 < chunk_size → start ≤ end_ →
  ∃ chunks,
    plan_fixed start end_ chunk_size = Ok chunks
    ∧ fst <$> head chunks = Some start
    ∧ snd <$> last chunks = Some end_
    ∧ (∀ i c c', chunks !! i = Some c → chunks !! S i = Some c' →
                 c'.1 = c.2 + 1 ∧ c.2 - c.1 + 1 = chunk_size)
    ∧ (∀ c, c ∈ chunks → c.1 ≤ c.2 ∧ c.2 - c.1 + 1 ≤ chunk_size).
Proof.
  intros Hk Hse.
  destruct (plan_fixed_lookup start end_ chunk_size Hk Hse)
    as (chunks & Hplan & Hlen & Hlook).
  pose proof (Z.div_pos (end_ - start) chunk_size ltac:(lia) Hk) as Hq.
  pose proof (Z.mul_div_le (end_ - start) chunk_size Hk) as Hlo.
  pose proof (Z.mul_succ_div_gt (end_ - start) chunk_size Hk) as Hhi.
  exists chunks. split; [done|]. split; [|split; [|split]].
  - rewrite head_lookup.
    assert (chunks !! 0%nat
            = Some (start + Z.of_nat 0 * chunk_size,
                    Z.min (start + Z.of_nat 0 * chunk_size + chunk_size - 1)
                          end_)) as ->
      by (apply Hlook; split; [lia|done]).
    cbn. f_equal. lia.
  - rewrite last_lookup.
    set (i := Nat.pred (length chunks)).
    assert (Z.of_nat i = (end_ - start) / chunk_size) as Hi by lia.
    assert (chunks !! i
            = Some (start + Z.of_nat i * chunk_size,
                    Z.min (start + Z.of_nat i * chunk_size + chunk_size - 1)
                          end_)) as ->
      by (apply Hlook; split; [lia|done]).
    cbn. f_equal. rewrite Hi. lia.
  - intros i c c' [Hi ->]%Hlook [Hi' ->]%Hlook. cbn.
    assert ((Z.of_nat i + 1) * chunk_size
            ≤ (end_ - start) / chunk_size * chunk_size) as Hmul
      by (apply Z.mul_le_mono_nonneg_r; lia).
    lia.
  - intros c [i [Hi ->]%Hlook]%list_elem_of_lookup. cbn.
    assert (Z.of_nat i * chunk_size
            ≤ (end_ - start) / chunk_size * chunk_size) as Hmul
      by (apply Z.mul_le_mono_nonneg_r; lia).
    lia.
Qed.

Lemma fixed_chunks_are_consecutive_witness :
  ∃ chunks,
    plan_fixed 64 75 5 = Ok chunks
    ∧ fst <$> head chunks = Some 64
    ∧ snd <$> last chunks = Some 75.
Proof.
  destruct (fixed_chunks_are_consecutive 64 75 5) as (chunks & H1 & H2 & H3 & _);
    [lia..|].
  by exists chunks.
Defined.

(** X9. The edge cases of fixed-size planning. A chunk size of zero makes
    [range] raise [ValueError] before any chunk is processed. An empty
    request ([end < start]) with a positive size, and a negative size with
    [start <= end + 1], plan no chunk at all: the loop does nothing and
    ends in the initial state. *)
Theorem fixed_planning_edges nav use_hierarchy generate output_dir
    start end_ chunk_size :
  (chunk_size = 0 →
   plan_and_run nav use_hierarchy generate output_dir false
     start end_ chunk_size = Raise ValueError)
  ∧ ((0 < chunk_size ∧ end_ < start) ∨ (chunk_size < 0 ∧ start ≤ end_ + 1) →
     plan_fixed start end_ chunk_size = Ok []
     ∧ plan_and_run nav use_hierarchy generate output_dir false
         start end_ chunk_size = Ok initial_state).
Proof.
  unfold plan_and_run, plan_chunks, plan_fixed, py_range. split.
  - intros ->. done.
  - intros H. rewrite decide_False by lia.
    rewrite decide_False by lia. rewrite decide_False by lia.
    done.
Qed.

Lemma fixed_planning_edges_witness :
  plan_and_run dup_nav false failing_generation "out" false 1 10 0
  = Raise ValueError
  ∧ plan_and_run dup_nav false failing_generation "out" false 10 1 5
    = Ok initial_state.
Proof.
  destruct (fixed_planning_edges dup_nav false failing_generation "out"
              1 10 0) as [H0 _].
  destruct (fixed_planning_edges dup_nav false failing_generation "out"
              10 1 5) as [_ H1].
  split; [by apply H0|]. apply H1. left. lia.
Defined.

(** ** Chapter-aligned chunks *)

(** X10. Chapter-aligned planning takes whole boundaries: every chunk is
    the unclipped range of a chapter boundary that overlaps the request,
    so there is none when [end < start]; and every indexed page of the
    request whose file is in the spine lies in one of the chunks. *)
Theorem chapter_chunks_cover_request nav start end_ :
  (∀ c, c ∈ plan_by_chapter nav start end_ →
     ∃ b, b ∈ get_chapter_boundaries nav
          ∧ c = (start_page b, end_page b)
          ∧ c.1 ≤ c.2 ∧ c.1 ≤ end_ ∧ start ≤ c.2 ∧ start ≤ end_)
  ∧ (∀ p info, page_map nav !! p = Some info →
       file_id info ∈ spine nav → start ≤ p ≤ end_ →
       ∃ c, c ∈ plan_by_chapter nav start end_ ∧ in_chunk p c).
Proof.
  unfold plan_by_chapter. split.
  - intros c (b & -> & [Hov Hb]%list_elem_of_filter)%list_elem_of_fmap.
    exists b. unfold overlaps in Hov. cbn. repeat split; [done|lia..].
  - intros p info Hp Hin Hreq.
    destruct (boundaries_of_spec nav (spine nav)) as [H1 H2].
    fold (get_chapter_boundaries nav) in H1, H2.
    assert (p ∈ pages_of nav (file_id info)) as Hown
      by (apply pages_of_elem; eauto).
    assert (file_id info ∈ b_file_id <$> get_chapter_boundaries nav) as Hb.
    { rewrite H1. apply list_elem_of_filter. split; [|done].
      intros Hnil. rewrite Hnil in Hown. by apply elem_of_nil in Hown. }
    apply list_elem_of_fmap in Hb as (b & Hfid & Hb).
    destruct (H2 b Hb) as (_ & _ & Hrange).
    rewrite <- Hfid in Hrange. specialize (Hrange p Hown).
    unfold in_range in Hrange.
    exists (start_page b, end_page b). split.
    + apply list_elem_of_fmap. exists b. split; [done|].
      apply list_elem_of_filter. split; [|done]. unfold overlaps. lia.
    + unfold in_chunk. cbn. lia.
Qed.

Lemma chapter_chunks_cover_request_witness :
  ∃ c, c ∈ plan_by_chapter interleaved_nav 2 2 ∧ in_chunk 2 c.
Proof.
  destruct (chapter_chunks_cover_request interleaved_nav 2 2) as [_ H].
  apply (H 2 {| file_id := "fileB"; full_path := "b.xhtml";
                anchor_id := "page_2" |}).
  - vm_compute. reflexivity.
  - cbn. right. left.
  - lia.
Defined.

Example chapter_chunks_interleaved :
  plan_by_chapter interleaved_nav 2 2 = [(1, 3); (2, 2)].
Proof. vm_compute. reflexivity. Qed.

(** ** Queries on a scanned book never raise *)

Lemma walk_order_subset nav start_file i :
  i ∈ walk_order nav start_file → i ∈ spine nav.
Proof.
  unfold walk_order. destruct (index_of _ _) as [n|]; [|by intros ?%elem_of_nil].
  intros Hi. rewrite elem_of_reverse in Hi.
  apply elem_of_take in Hi as (j & Hj & _). by eapply list_elem_of_lookup_2.
Qed.

(** X11. With a page map obtained by scanning the archive, and no spine
    item making the path computation raise, neither query raises, for any
    page numbers, and so [extract_pages] always returns a text, whatever
    the generation call does. *)
Theorem scanned_book_queries_never_raise zip dir sp mani writable :
  let nav := (open_navigator zip dir sp mani None writable).1 in
  paths_resolve nav →
  (∀ page end_page,
     (∃ c, get_hierarchy_context nav page = Ok c)
     ∧ ∃ text, get_content_by_page_range nav page end_page = Ok text)
  ∧ (∀ use_hierarchy generate start_page end_page previous,
       ∃ text, extract_pages nav use_hierarchy generate start_page end_page
                 previous = Ok text).
Proof.
  cbn. set (nav := {| z := zip; opf_dir := dir; spine := sp;
                      manifest := mani;
                      page_map := scan_book zip dir mani sp |}).
  intros Hpaths.
  assert (∀ page end_page,
            (∃ c, get_hierarchy_context nav page = Ok c)
            ∧ ∃ text, get_content_by_page_range nav page end_page = Ok text)
    as Hq.
  { intros page end_page. split.
    - unfold get_hierarchy_context, get_hierarchy_context_reads.
      destruct (page_map nav !! page) as [info|] eqn:Hpage; [|by eexists].
      destruct (scanned_entry_comes_from_archive_aux zip dir mani sp _ _
                  Hpage) as [Hin _].
      destruct (index_of_elem (file_id info) (spine nav) Hin) as [i Hi].
      rewrite Hi.
      destruct (walk_back_spec nav (reverse (take (S i) (spine nav)))
                  empty_context) as (visited & -> & _); [|done|by eexists].
      intros x Hx. apply Hpaths.
      apply (walk_order_subset nav (file_id info)). unfold walk_order.
      by rewrite Hi.
    - unfold get_content_by_page_range, get_content_by_page_range_reads.
      destruct (page_map nav !! page) as [info|]; [|by eexists].
      destruct (collect_range_total nav (file_id info)
                  (file_id <$> page_map nav !! (end_page + 1)) false
                  (spine nav) Hpaths) as [[reads content] ->].
      by eexists. }
  split; [done|].
  intros h gen s e prev. unfold extract_pages.
  destruct (Hq s e) as [[c Hc] [text ->]]. cbn.
  destruct h; [rewrite Hc|]; by eexists.
Qed.

Lemma scanned_book_queries_never_raise_witness :
  (∃ c, get_hierarchy_context dup_nav 1 = Ok c)
  ∧ ∃ text, get_content_by_page_range dup_nav 1 5 = Ok text.
Proof.
  refine (proj1 (scanned_book_queries_never_raise dup_zip "OEBPS"
                   dup_spine dup_manifest true _) 1 5).
  intros i Hi. cbn in Hi.
  apply elem_of_cons in Hi as [->|Hi]; [vm_compute; by eexists|].
  apply elem_of_cons in Hi as [->|Hi]; [vm_compute; by eexists|].
  by apply elem_of_nil in Hi.
Defined.

(** ** What the chunk loop keeps *)

Lemma last_with_default (x d : json) l :
  last (x :: l) = Some (List.last (x :: l) d).
Proof.
  revert x. induction l as [|y l IH]; intros x; [done|].
  rewrite last_cons_cons.
  change (List.last (x :: y :: l) d) with (List.last (y :: l) d).
  apply IH.
Qed.

Lemma process_chunk_cases output_dir st chunk text st' :
  process_chunk output_dir st chunk text = Ok st' →
  (parse_chunk text = []
   ∧ st' = {| all_codes := all_codes st;
              last_code_context := last_code_context st;
              written := written st ++
                [(chunk_filename output_dir chunk.1 chunk.2 "_raw_error.txt",
                  RawText text)] |})
  ∨ (∃ members,
       last (parse_chunk text) = Some (JDict members)
       ∧ st' = {| all_codes := all_codes st ++ parse_chunk text;
                  last_code_context := Some (JDict members);
                  written := written st ++
                    [(chunk_filename output_dir chunk.1 chunk.2
                        "_chapter.jsonl",
                      JsonLines (parse_chunk text))] |}).
Proof.
  unfold process_chunk.
  destruct (parse_chunk text) as [|first others] eqn:Hparse.
  - intros [= <-]. by left.
  - rewrite (last_with_default first first).
    destruct (List.last (first :: others) first) eqn:Hlast; try done.
    intros [= <-]. right. by eexists.
Qed.

(** When the chunk loop returns, it has written exactly one file per
    chunk, in chunk order, each named by its chunk's page range, and the
    records it gathered are those of the chunk files, in the same order. *)
Lemma loop_run_files nav use_hierarchy generate output_dir chunks st st' :
  run_chunks nav use_hierarchy generate output_dir chunks st = Ok st' →
  ∃ files,
    written st' = written st ++ files
    ∧ Forall2 (chunk_artifact output_dir) chunks files
    ∧ all_codes st' = all_codes st ++ records_written files.
Proof.
  revert st. induction chunks as [|chunk rest IH]; intros st.
  - intros [= <-]. exists []. by rewrite !app_nil_r.
  - cbn [run_chunks].
    destruct (extract_pages _ _ _ _ _ _) as [text|]; [|done]. cbn.
    destruct (process_chunk output_dir st chunk text) as [st1|] eqn:Hpc;
      [|done].
    cbn. intros Hrun.
    destruct (IH _ Hrun) as (files & Hw & Hf & Hc).
    apply process_chunk_cases in Hpc
      as [[Hparse ->]|(members & Hlast & ->)]; cbn in Hw, Hc.
    + eexists (_ :: files). rewrite Hw, Hc, <- (assoc_L (++)).
      split; [done|]. split; [|done].
      constructor; [|done]. right. by eexists.
    + eexists (_ :: files). rewrite Hw, Hc, <- !(assoc_L (++)).
      split; [done|]. split; [|done].
      constructor; [|done]. left. eexists. split; [|done].
      intros Hnil. by rewrite Hnil in Hlast.
Qed.

Lemma process_chunk_keeps_context output_dir st chunk text st' :
  context_is_last_record st →
  process_chunk output_dir st chunk text = Ok st' →
  context_is_last_record st'.
Proof.
  intros [Hlast Hdict] [[_ ->]|(members & Hl & ->)]%process_chunk_cases.
  - done.
  - split; cbn.
    + apply last_Some in Hl as [l' ->].
      by rewrite (assoc_L (++)), last_snoc.
    + intros c [= <-]. by eexists.
Qed.

(** X12. The context handed to the next chunk is always the last record
    emitted so far, and that record is a [dict]: this holds at the start of
    a run and the loop keeps it through every chunk, with or without
    records. *)
Theorem carried_context_is_last_record nav use_hierarchy generate
    output_dir chunks st st' :
  context_is_last_record st →
  run_chunks nav use_hierarchy generate output_dir chunks st = Ok st' →
  context_is_last_record st'.
Proof.
  revert st. induction chunks as [|chunk rest IH]; intros st Hinv.
  - by intros [= <-].
  - cbn [run_chunks].
    destruct (extract_pages _ _ _ _ _ _) as [text|]; [|done]. cbn.
    destruct (process_chunk output_dir st chunk text) as [st1|] eqn:Hpc;
      [|done].
    cbn. apply IH. by eapply process_chunk_keeps_context.
Qed.

Lemma carried_context_is_last_record_witness :
  context_is_last_record initial_state
  ∧ context_is_last_record
      {| all_codes := [record "10021"];
         last_code_context := Some (record "10021");
         written :=
           [("out/cpt_1_2_raw_error.txt", RawText "no codes on these pages");
            ("out/cpt_3_3_chapter.jsonl", JsonLines [record "10021"])] |}.
Proof.
  assert (context_is_last_record initial_state) as Hinit
    by (split; [done|by intros c [=]]).
  split; [exact Hinit|].
  apply (carried_context_is_last_record
           (scenario_nav (file_with [] [] "alpha") (file_with [] [] "beta"))
           false
           (λ current_start _ _ _ _,
              if decide (current_start = 1)
              then Some "no codes on these pages"
              else Some (dq "{'code': '10021'}"))
           "out" [(1, 2); (3, 3)] initial_state _ Hinit).
  vm_compute. reflexivity.
Defined.

(** ** The cleaned response *)

Section strings.
Import Py.

Lemma length_app_string a b :
  String.length (a +:+ b) = (String.length a + String.length b)%nat.
Proof. induction a as [|c a IH]; [done|]. cbn. by rewrite <- IH. Qed.

Lemma drop_app_length a b : drop (String.length a) (a +:+ b) = b.
Proof. induction a as [|c a IH]; [by destruct b|]. exact IH. Qed.

Lemma take_app_length_string a b : take (String.length a) (a +:+ b) = a.
Proof.
  induction a as [|c a IH]; [by destruct b|].
  cbn. f_equal. exact IH.
Qed.

Lemma startswith_app p s : startswith (p +:+ s) p = true.
Proof.
  induction p as [|c p IH]; [done|].
  change (startswith (String c p +:+ s) (String c p))
    with (Ascii.eqb c c && startswith (p +:+ s) p).
  by rewrite Ascii.eqb_refl, IH.
Qed.

Lemma startswith_app_l s p q :
  startswith s (p +:+ q) = true → startswith s p = true.
Proof.
  revert s. induction p as [|a p IH]; intros [|b s]; simpl; try done.
  intros [-> Hs]%andb_true_iff. by rewrite (IH _ Hs).
Qed.

Lemma endswith_app s p : endswith (s +:+ p) p = true.
Proof.
  unfold endswith. rewrite length_app_string.
  replace (String.length s + String.length p - String.length p)%nat
    with (String.length s) by lia.
  rewrite drop_app_length, String.eqb_refl, andb_true_r.
  apply Nat.leb_le. lia.
Qed.

Lemma drop_end_app s p : drop_end (String.length p) (s +:+ p) = s.
Proof.
  unfold drop_end. rewrite length_app_string.
  replace (String.length s + String.length p - String.length p)%nat
    with (String.length s) by lia.
  apply take_app_length_string.
Qed.

Lemma lstrip_head s :
  lstrip s = "" ∨ ∃ c r, lstrip s = String c r ∧ is_space c = false.
Proof.
  induction s as [|c s IH]; [by left|].
  simpl. destruct (is_space c) eqn:E; [done|]. right. by eexists _, _.
Qed.

Lemma rstrip_idemp s : rstrip (rstrip s) = rstrip s.
Proof.
  induction s as [|c s IH]; [done|].
  simpl. destruct (rstrip s) as [|d r] eqn:E.
  - destruct (is_space c) eqn:Ec; [done|]. simpl. by rewrite Ec.
  - change (rstrip (String c (String d r)))
      with (match rstrip (String d r) with
            | "" => if is_space c then "" else String c ""
            | r' => String c r'
            end).
    by rewrite IH.
Qed.

Lemma rstrip_keeps_head c s :
  is_space c = false → ∃ r, rstrip (String c s) = String c r.
Proof.
  intros Hc. simpl. destruct (rstrip s); [|by eexists].
  rewrite Hc. by eexists.
Qed.

Lemma strip_idemp s : strip (strip s) = strip s.
Proof.
  unfold strip.
  destruct (lstrip_head s) as [->|(c & r & -> & Hc)]; [done|].
  destruct (rstrip_keeps_head c r Hc) as [r' Hr]. rewrite Hr.
  simpl lstrip. rewrite Hc. rewrite <- Hr. apply rstrip_idemp.
Qed.

End strings.

(** X14. The text [extract_pages] hands to the parser never begins or ends
    with whitespace: stripping it changes nothing, whether it was cleaned
    from a response or stands for a call that raised. *)
Theorem response_text_is_stripped outcome :
  Py.strip (response_text outcome) = response_text outcome.
Proof.
  destruct outcome as [text|]; [|done].
  unfold response_text, clean_response. apply strip_idemp.
Qed.

(** X15. A response wrapped in one [```json] fence is unwrapped: when the
    stripped response is the opening fence, a body that does not itself
    begin with a fence, and the closing fence, the cleaned text is the
    stripped body. A response with no fence at either end is only
    stripped. *)
Theorem fenced_response_is_unwrapped text body :
  (Py.strip text = "```json" +:+ body +:+ "```" →
   Py.startswith body "```" = false →
   clean_response text = Py.strip body)
  ∧ (Py.startswith (Py.strip text) "```" = false →
     Py.endswith (Py.strip text) "```" = false →
     clean_response text = Py.strip text).
Proof.
  split.
  - intros Hs Hb. unfold clean_response. rewrite Hs.
    rewrite startswith_app.
    change 7%nat with (String.length "```json").
    rewrite drop_app_length.
    destruct (Py.startswith (body +:+ "```") "```") eqn:Hfence.
    + assert (body = "" ∨ body = "`" ∨ body = "``") as Hshort.
      { destruct body as [|c1 [|c2 [|c3 b]]]; [by left| | |].
        - cbn in Hfence. apply andb_true_iff in Hfence as [->%Ascii.eqb_eq _].
          right. by left.
        - cbn in Hfence.
          apply andb_true_iff in Hfence as [->%Ascii.eqb_eq Hfence].
          apply andb_true_iff in Hfence as [->%Ascii.eqb_eq _].
          right. by right.
        - change (Py.startswith (String c1 (String c2 (String c3 b))) "```")
            with (Py.startswith
                    (String c1 (String c2 (String c3 b)) +:+ "```") "```")
            in Hb.
          congruence. }
      destruct Hshort as [->|[->| ->]]; vm_compute; reflexivity.
    + rewrite endswith_app.
      change 3%nat with (String.length "```").
      by rewrite drop_end_app.
  - intros Hs He. unfold clean_response.
    assert (Py.startswith (Py.strip text) "```json" = false) as ->.
    { destruct (Py.startswith (Py.strip text) "```json") eqn:E; [|done].
      apply (startswith_app_l _ "```" "json") in E. congruence. }
    rewrite Hs, He. apply strip_idemp.
Qed.

Lemma fenced_response_is_unwrapped_witness :
  clean_response "  ```json
[1, 2]
```
" = "[1, 2]"
  ∧ clean_response "  [1, 2] " = "[1, 2]".
Proof.
  split.
  - refine (eq_trans (proj1 (fenced_response_is_unwrapped _ "
[1, 2]
") _ _) _); vm_compute; reflexivity.
  - refine (eq_trans (proj2 (fenced_response_is_unwrapped _ "") _ _) _);
      vm_compute; reflexivity.
Defined.

(** ** The name of the combined output *)

Example final_output_name_ex :
  final_output_name "cpt_output.json" [(64, 68); (69, 70)]
  = "cpt_output_64_70.jsonl"
  ∧ final_output_name "cpt_64_65_chapter.json" [(64, 65)]
    = "cpt_64_65_chapter.jsonl"
  ∧ final_output_name "out/run.1/codes" [(1, 5)] = "out/run.1/codes_1_5.jsonl"
  ∧ final_output_name "out/codes.txt" [] = "out/codes.txt.jsonl"
  ∧ final_output_name "/codes.jsonl" [(7, 9)] = "/codes_7_9.jsonl"
  ∧ PyPath.splitext ".hidden" = (".hidden", "")
  ∧ PyPath.dirname "//a" = "//" ∧ PyPath.dirname "a/b//c" = "a/b".
Proof. vm_compute. repeat split. Qed.

(** X16. Whatever the requested output name and the chunks processed, the
    name of the combined output ends in [.jsonl]: a final [.json] is
    replaced, any other ending gets [.jsonl] appended. *)
Theorem final_output_name_ends_in_jsonl output chunks :
  Py.endswith (final_output_name output chunks) ".jsonl" = true
  ∧ (Py.endswith (stamped_output output chunks) ".json" = true →
     final_output_name output chunks
     = Py.drop_end 5 (stamped_output output chunks) +:+ ".jsonl")
  ∧ (Py.endswith (stamped_output output chunks) ".json" = false →
     Py.endswith (stamped_output output chunks) ".jsonl" = false →
     final_output_name output chunks
     = stamped_output output chunks +:+ ".jsonl").
Proof.
  unfold final_output_name.
  set (final_output := stamped_output output chunks). clearbody final_output.
  split; [|split].
  - destruct (Py.endswith final_output ".json") eqn:E1.
    + apply endswith_app.
    + destruct (Py.endswith final_output ".jsonl") eqn:E2; [done|].
      apply endswith_app.
  - by intros ->.
  - by intros -> ->.
Qed.

(** ** The CSV converters *)

Example csv_row_ex :
  csv_row (JDict [("code", JString "10021"); ("note", JNull);
                  ("code", JString "10022"); ("topic", JString "Skin")])
  = Ok [JString "10022"; JString ""; JString ""; JString ""; JString "";
        JString ""; JString ""; JString ""; JString ""; JString "Skin";
        JString ""; JString ""]
  ∧ convert_lines [dq "{'code': '1'}"; ""; dq "{'code': "; dq "{'code': '2'}"]
    = [[JString "1"; JString ""; JString ""; JString ""; JString "";
        JString ""; JString ""; JString ""; JString ""; JString "";
        JString ""; JString ""];
       [JString "2"; JString ""; JString ""; JString ""; JString "";
        JString ""; JString ""; JString ""; JString ""; JString "";
        JString ""; JString ""]]
  ∧ convert_lines [dq "{'code': '1'}"; "[]"; dq "{'code': '2'}"]
    = [[JString "1"; JString ""; JString ""; JString ""; JString "";
        JString ""; JString ""; JString ""; JString ""; JString "";
        JString ""; JString ""]].
Proof. vm_compute. repeat split. Qed.

Lemma dict_get_other_key k k' v m1 m2 :
  k' ≠ k → dict_get k (m1 ++ (k', v) :: m2) = dict_get k (m1 ++ m2).
Proof.
  intros Hne. induction m1 as [|[k1 v1] m1 IH]; simpl.
  - apply String.eqb_neq in Hne. rewrite Hne. by destruct (dict_get k m2).
  - by rewrite IH.
Qed.

(** X17. A CSV row has one cell per column of the fixed schema, and a key
    of the record that is not one of those columns has no effect on it,
    wherever it stands in the record. *)
Theorem csv_row_has_schema_columns_only m1 k v m2 :
  k ∉ fieldnames →
  csv_row (JDict (m1 ++ (k, v) :: m2)) = csv_row (JDict (m1 ++ m2))
  ∧ ∃ row, csv_row (JDict (m1 ++ m2)) = Ok row
           ∧ length row = length fieldnames.
Proof.
  intros Hk. split.
  - unfold csv_row. f_equal. apply list_fmap_ext.
    intros i x Hx. apply list_elem_of_lookup_2 in Hx.
    rewrite dict_get_other_key; [done|]. by intros ->.
  - eexists. split; [reflexivity|]. by rewrite length_fmap.
Qed.

Lemma csv_row_has_schema_columns_only_witness :
  csv_row (JDict ([("code", JString "10021")] ++ ("note", JNull) :: []))
  = csv_row (JDict ([("code", JString "10021")] ++ [])).
Proof.
  refine (proj1 (csv_row_has_schema_columns_only
                   [("code", JString "10021")] "note" JNull [] _)).
  vm_compute. intros H. repeat (apply elem_of_cons in H as [H|H]; [done|]).
  by apply elem_of_nil in H.
Defined.

(** X18. In a JSONL file, a blank line and a line that is not JSON are
    passed over: the rows written are those of the file without that
    line. *)
Theorem invalid_line_is_passed_over before line after :
  Py.strip line = "" ∨ Json.loads (Py.strip line) = None →
  convert_lines (before ++ line :: after) = convert_lines (before ++ after).
Proof.
  intros H. induction before as [|x before IH]; simpl.
  - destruct H as [->| ->]; [done|]. by destruct (String.eqb _ _).
  - rewrite IH. done.
Qed.

Lemma invalid_line_is_passed_over_witness :
  convert_lines ([dq "{'code': '1'}"] ++ dq "{'code': " :: [dq "{'code': '2'}"])
  = convert_lines ([dq "{'code': '1'}"] ++ [dq "{'code': '2'}"]).
Proof.
  apply (invalid_line_is_passed_over [dq "{'code': '1'}"] (dq "{'code': ")
           [dq "{'code': '2'}"]).
  right. vm_compute. reflexivity.
Defined.

(** X19. In a JSONL file, a line that is valid JSON but no object ends
    the file: [entry.get] raises, the file's [except] takes over, and no
    row is written for that line or for any line after it. *)
Theorem non_object_line_ends_the_file before line after entry :
  Json.loads (Py.strip line) = Some entry →
  (∀ members, entry ≠ JDict members) →
  convert_lines (before ++ line :: after) = convert_lines before.
Proof.
  intros Hload Hnot. induction before as [|x before IH]; simpl.
  - rewrite Hload.
    destruct (String.eqb (Py.strip line) "") eqn:E.
    { apply String.eqb_eq in E. rewrite E in Hload. by vm_compute in Hload. }
    destruct entry; try done. by destruct (Hnot members).
  - by rewrite IH.
Qed.

Lemma non_object_line_ends_the_file_witness :
  convert_lines ([dq "{'code': '1'}"] ++ "[]" :: [dq "{'code': '2'}"])
  = convert_lines [dq "{'code': '1'}"].
Proof.
  apply (non_object_line_ends_the_file [dq "{'code': '1'}"] "[]"
           [dq "{'code': '2'}"] (JList [])).
  - vm_compute. reflexivity.
  - done.
Defined.

Lemma convert_entries_stop before entry after :
  (∀ members, entry ≠ JDict members) →
  convert_entries (before ++ entry :: after) = convert_entries before.
Proof.
  intros Hnot. induction before as [|x before IH]; simpl.
  - destruct entry; try done. by destruct (Hnot members).
  - by rewrite IH.
Qed.

Lemma convert_entries_all_dicts entries :
  Forall (λ entry, ∃ members, entry = JDict members) entries →
  length (convert_entries entries) = length entries.
Proof.
  induction 1 as [|entry entries [members ->] _ IH]; [done|].
  simpl. by rewrite IH.
Qed.

(** X20. [json_to_csv] writes rows only for a file whose JSON value is a
    list. For a list it writes one row per entry as long as the entries are
    objects; the first entry that is no object makes [entry.get] raise and
    ends the file, the rows before it staying written. *)
Theorem json_file_rows_stop_at_non_object text :
  ((∀ entries, Json.loads text ≠ Some (JList entries)) →
   convert_json_file text = [])
  ∧ (∀ before entry after,
       Json.loads text = Some (JList (before ++ entry :: after)) →
       (∀ members, entry ≠ JDict members) →
       convert_json_file text = convert_entries before)
  ∧ (∀ entries,
       Json.loads text = Some (JList entries) →
       Forall (λ entry, ∃ members, entry = JDict members) entries →
       length (convert_json_file text) = length entries).
Proof.
  unfold convert_json_file. split; [|split].
  - intros H. destruct (Json.loads text) as [[| | | | |l|]|]; try done.
    by destruct (H l).
  - intros before entry after -> Hnot. by apply convert_entries_stop.
  - intros entries -> Hall. by apply convert_entries_all_dicts.
Qed.

Lemma json_file_rows_stop_at_non_object_witness :
  convert_json_file (dq "[{'code': '1'}, 7, {'code': '2'}]")
  = convert_entries [record "1"].
Proof.
  destruct (json_file_rows_stop_at_non_object
              (dq "[{'code': '1'}, 7, {'code': '2'}]")) as (_ & H & _).
  apply (H [record "1"] (JInt 7) [record "2"]).
  - vm_compute. reflexivity.
  - done.
Defined.

Global Instance by_name_trans :
  Transitive (λ f g : string * option (list string), String.le f.1 g.1).
Proof. intros f g h. apply (transitivity (R := String.le)). Qed.

Global Instance by_name_total :
  Total (λ f g : string * option (list string), String.le f.1 g.1).
Proof. intros f g. apply (total String.le). Qed.

(** X21. The rows [jsonl_to_csv] writes do not depend on the order in
    which the files to process are listed: with distinct names, the files
    are always taken in the order of their names. *)
Theorem jsonl_to_csv_ignores_listing_order files files' :
  files ≡ₚ files' → NoDup files.*1 →
  jsonl_to_csv files = jsonl_to_csv files'.
Proof.
  intros Hperm Hnd. unfold jsonl_to_csv. f_equal.
  apply (StronglySorted_unique_strong
           (λ f g : string * option (list string), String.le f.1 g.1)).
  - intros f g Hf Hg Hfg Hgf.
    rewrite merge_sort_Permutation in Hf, Hg. rewrite <- Hperm in Hg.
    assert (f.1 = g.1) as Hname by by apply (anti_symm String.le).
    apply list_elem_of_lookup in Hf as [i Hi].
    apply list_elem_of_lookup in Hg as [j Hj].
    assert (i = j) as ->.
    { apply (NoDup_lookup (files.*1) i j f.1); [done|..];
        rewrite list_lookup_fmap; [by rewrite Hi|by rewrite Hj, Hname]. }
    congruence.
  - apply StronglySorted_merge_sort; apply _.
  - apply StronglySorted_merge_sort; apply _.
  - by rewrite !merge_sort_Permutation.
Qed.

Lemma jsonl_to_csv_ignores_listing_order_witness :
  jsonl_to_csv [("cpt_6_9_chapter.jsonl", Some [dq "{'code': '2'}"]);
                ("cpt_1_5_chapter.jsonl", Some [dq "{'code': '1'}"])]
  = jsonl_to_csv [("cpt_1_5_chapter.jsonl", Some [dq "{'code': '1'}"]);
                  ("cpt_6_9_chapter.jsonl", Some [dq "{'code': '2'}"])].
Proof.
  apply jsonl_to_csv_ignores_listing_order.
  - apply Permutation_swap.
  - cbn. apply NoDup_cons. split; [|apply NoDup_singleton].
    intros H%list_elem_of_singleton. discriminate H.
Defined.

(** ** The whole run *)

Example main_ex :
  main (scenario_nav (file_with [] [] "alpha") (file_with [] [] "beta"))
    false
    (λ current_start _ _ _ _,
       if decide (current_start = 1) then Some (dq "{'code': '10021'}")
       else Some "nothing")
    "out/cpt_output.json" false false 1 3 2
  = Ok {| all_codes := [record "10021"];
          last_code_context := Some (record "10021");
          written :=
            [("out/cpt_1_2_chapter.jsonl", JsonLines [record "10021"]);
             ("out/cpt_3_3_raw_error.txt", RawText "nothing");
             ("out/cpt_output_1_3.jsonl", JsonLines [record "10021"])] |}.
Proof. vm_compute. reflexivity. Qed.

(** X22. When [main] returns, it has written one file per planned chunk in
    the directory of the requested output, and then, unless the combined
    output is skipped, one more file whose records are exactly those of
    the chunk files, in order; with the combined output skipped, the chunk
    files are all it writes. *)
Theorem main_combined_output_is_chunk_files nav use_hierarchy generate
    output by_chapter skip_combined_output start end_ chunk_size st :
  main nav use_hierarchy generate output by_chapter skip_combined_output
    start end_ chunk_size = Ok st →
  ∃ chunks files,
    plan_chunks nav by_chapter start end_ chunk_size = Ok chunks
    ∧ Forall2 (chunk_artifact (PyPath.dirname output)) chunks files
    ∧ all_codes st = records_written files
    ∧ written st
      = if skip_combined_output then files
        else files ++ [(final_output_name output chunks,
                        JsonLines (records_written files))].
Proof.
  unfold main.
  destruct (plan_chunks _ _ _ _ _) as [chunks|]; [|done]. cbn.
  destruct (run_chunks _ _ _ _ _ _) as [st1|] eqn:Hrun; [|done]. cbn.
  destruct (loop_run_files _ _ _ _ _ _ _ Hrun) as (files & Hw & Hf & Hc).
  cbn in Hw, Hc. intros [= <-].
  exists chunks, files. split; [done|]. split; [done|].
  destruct skip_combined_output; cbn; by rewrite ?Hw, ?Hc.
Qed.

Lemma main_combined_output_is_chunk_files_witness :
  ∃ chunks files,
    plan_chunks
      (scenario_nav (file_with [] [] "alpha") (file_with [] [] "beta"))
      false 1 3 2 = Ok chunks
    ∧ Forall2 (chunk_artifact (PyPath.dirname "out/cpt_output.json"))
        chunks files
    ∧ [record "10021"] = records_written files
    ∧ [("out/cpt_1_2_chapter.jsonl", JsonLines [record "10021"]);
       ("out/cpt_3_3_raw_error.txt", RawText "nothing");
       ("out/cpt_output_1_3.jsonl", JsonLines [record "10021"])]
      = files ++ [(final_output_name "out/cpt_output.json" chunks,
                   JsonLines (records_written files))].
Proof.
  apply (main_combined_output_is_chunk_files
           (scenario_nav (file_with [] [] "alpha") (file_with [] [] "beta"))
           false
           (λ current_start _ _ _ _,
              if decide (current_start = 1)
              then Some (dq "{'code': '10021'}")
              else Some "nothing")
           "out/cpt_output.json" false false 1 3 2
           {| all_codes := [record "10021"];
              last_code_context := Some (record "10021");
              written :=
                [("out/cpt_1_2_chapter.jsonl", JsonLines [record "10021"]);
                 ("out/cpt_3_3_raw_error.txt", RawText "nothing");
                 ("out/cpt_output_1_3.jsonl", JsonLines [record "10021"])] |}).
  vm_compute. reflexivity.
Defined.
